(** * qrrr: animated QR codes

    A shallow embedding of [ecc.py] and [qrrr.py] and the properties of the
    chunking, frame-composition and sequence-assembly logic.

    Conventions of the embedding.
    - Python integers are [Z]; [//] is [Z.div] (both round towards minus
      infinity) guarded by the [ZeroDivisionError] of a zero divisor.
    - [bytes] is [list byte]; indexing and slicing follow Python, negative
      indices included.
    - Python floats are modelled by the rational numbers they approximate
      ([Q]): [a / b] on integers is the exact quotient and [int(x)] truncates
      towards zero.  Line 55, where the rounding of the product decides the
      width of the bar, is modelled a second time in binary64, with the
      operations of the Standard Library's [SpecFloat].
    - Exceptions are an error monad, [result]; the one mutable object, the
      [qrcode.QRCode] shared by all frames, is passed explicitly and returned
      with every result.
    - The [qrcode] encoder and the [PIL] raster operations are outside the
      program: an image is the term of the operations that built it. *)

From Stdlib Require Import ZArith QArith Qround Lia List String Strings.Byte.
From Stdlib Require Import SpecFloat.
From stdpp Require Import base option list strings gmap.

Local Open Scope Z_scope.

(** ** Python runtime *)

Inductive exn : Type :=
| IndexError
| ZeroDivisionError
| AssertionError
| FileNotFoundError
| ValueError
| OverflowError.

Inductive result (A : Type) : Type :=
| Ok (a : A)
| Raise (e : exn).

Arguments Ok {A} a.
Arguments Raise {A} e.

#[global] Instance result_ret : MRet result := fun _ a => Ok a.
#[global] Instance result_bind : MBind result := fun _ _ f m =>
  match m with
  | Ok a => f a
  | Raise e => Raise e
  end.

#[global] Instance result_fmap : FMap result := fun _ _ f m =>
  match m with
  | Ok a => Ok (f a)
  | Raise e => Raise e
  end.

Definition bytes : Type := list byte.

Definition len {A} (l : list A) : Z := Z.of_nat (length l).

(** [l[i]]: a negative index counts from the end. *)
Definition py_getitem {A} (l : list A) (i : Z) : result A :=
  let j := if i <? 0 then i + len l else i in
  if (0 <=? j) && (j <? len l)
  then match l !! Z.to_nat j with
       | Some x => Ok x
       | None => Raise IndexError
       end
  else Raise IndexError.

(** [l[i] = x]. *)
Definition py_setitem {A} (l : list A) (i : Z) (x : A) : result (list A) :=
  let j := if i <? 0 then i + len l else i in
  if (0 <=? j) && (j <? len l)
  then Ok (<[Z.to_nat j := x]> l)
  else Raise IndexError.

(** The bound of a slice, clipped to the sequence as Python does. *)
Definition slice_bound (n i : Z) : Z :=
  if i <? 0 then Z.max 0 (i + n) else Z.min i n.

(** [l[a:b]]. *)
Definition py_slice {A} (l : list A) (a b : Z) : list A :=
  let a' := slice_bound (len l) a in
  let b' := slice_bound (len l) b in
  take (Z.to_nat (b' - a')) (drop (Z.to_nat a') l).

(** [range(n)]. *)
Definition range (n : Z) : list Z := Z.of_nat <$> seq 0 (Z.to_nat n).

(** [range(a, b)]. *)
Definition range_from (a b : Z) : list Z :=
  (fun k : nat => a + Z.of_nat k) <$> seq 0 (Z.to_nat (b - a)).

(** [a // b] on integers. *)
Definition py_floordiv (a b : Z) : result Z :=
  if b =? 0 then Raise ZeroDivisionError else Ok (a / b).

(** [a / b] on integers: true division. *)
Definition py_truediv (a b : Z) : result Q :=
  if b =? 0 then Raise ZeroDivisionError else Ok (inject_Z a / inject_Z b)%Q.

(** [float(x)] on a float. *)
Definition py_float (x : Q) : Q := x.

(** [int(x)] on a float: truncation towards zero. *)
Definition py_int (x : Q) : Z := Z.quot (Qnum x) (Z.pos (Qden x)).

(** ** Binary64

    A Python float is an IEEE 754 binary64 number: 53 bits of precision,
    rounding to nearest, ties to even. *)

Module binary64.

Definition prec : Z := 53.
Definition emax : Z := 1024.


(** An integer as the float operand of [*]: rounded when it has more than
    53 bits, refused when it is too large for a float. *)
Definition of_int (z : Z) : result spec_float :=
  match binary_normalize prec emax z 0 false with
  | S754_infinity _ => Raise OverflowError
  | x => Ok x
  end.

(** [x * y] on floats. *)
Definition mul (x y : spec_float) : spec_float := SFmul prec emax x y.

(** [int(x)] on a float: truncation towards zero. *)
Definition to_int (x : spec_float) : result Z :=
  match x with
  | S754_zero _ => Ok 0
  | S754_finite s m e =>
      Ok (cond_Zopp s
            match e with
            | Z0 => Zpos m
            | Zpos k => Zpos m * 2 ^ Zpos k
            | Zneg k => Zpos m / 2 ^ Zpos k
            end)
  | S754_infinity _ => Raise OverflowError
  | S754_nan => Raise ValueError
  end.

End binary64.

(** [for x in l: s = body(s, x)], stopping at the first exception. *)
Fixpoint for_each {S A} (body : S -> A -> result S) (s : S) (l : list A)
  : result S :=
  match l with
  | [] => Ok s
  | x :: l' =>
      match body s x with
      | Ok s' => for_each body s' l'
      | Raise e => Raise e
      end
  end.

(** ** The [qrcode] library, as far as the program uses it *)

Module qrcode.

(** The four error-correction constants of [qrcode.constants]. *)
Definition ERROR_CORRECT_L : Z := 1.
Definition ERROR_CORRECT_M : Z := 0.
Definition ERROR_CORRECT_Q : Z := 3.
Definition ERROR_CORRECT_H : Z := 2.

(** The encoder object: its configuration and the payloads added so far. *)
Record QRCode : Type := mkQRCode {
  _version : Z;
  error_correction : Z;
  box_size : Z;
  border : Z;
  data_list : list bytes
}.

(** The encoder as the constructor leaves it, once it has accepted the
    version: the library's defaults are [box_size=10] and [border=4], and
    there is no payload yet. *)
Definition new (version ecc : Z) : QRCode :=
  mkQRCode version ecc 10 4 [].

(** [util.check_version], which the setter of [version] calls. *)
Definition check_version (version : Z) : result unit :=
  if (version <? 1) || (40 <? version) then Raise ValueError else Ok tt.

(** [qrcode.QRCode(version=..., error_correction=...)]: the version is
    checked, the level is not. *)
Definition __init__ (version ecc : Z) : result QRCode :=
  _ ← check_version version;
  Ok (new version ecc).

Definition clear (qr : QRCode) : QRCode :=
  mkQRCode (_version qr) (error_correction qr) (box_size qr) (border qr) [].

Definition add_data (qr : QRCode) (data : bytes) : QRCode :=
  mkQRCode (_version qr) (error_correction qr) (box_size qr) (border qr)
           (data_list qr ++ [data]).

End qrcode.

Import qrcode.

(** ** ecc.py *)

Definition ECC_MAP : list (string * Z) :=
  [ ("L"%string, ERROR_CORRECT_L);
    ("M"%string, ERROR_CORRECT_M);
    ("H"%string, ERROR_CORRECT_H);
    ("Q"%string, ERROR_CORRECT_Q) ].

Definition ECC_MODES : list string := fst <$> ECC_MAP.

Definition DENSITY_L : list Z :=
  [   17;   32;   53;   78;  106;  134;  154;  192;  230;  271;
     321;  367;  425;  458;  520;  586;  644;  718;  792;  858;
     929; 1003; 1091; 1171; 1273; 1367; 1465; 1528; 1628; 1732;
    1840; 1952; 2068; 2188; 2303; 2431; 2563; 2699; 2809; 2953 ].

Definition DENSITY_M : list Z :=
  [   14;   26;   42;   62;   84;  106;  122;  152;  180;  213;
     251;  287;  331;  362;  412;  450;  504;  560;  624;  666;
     711;  779;  857;  911;  997; 1059; 1125; 1190; 1264; 1370;
    1452; 1538; 1628; 1722; 1809; 1911; 1989; 2099; 2213; 2331 ].

Definition DENSITY_H : list Z :=
  [    7;   14;   24;   34;   44;   58;   64;   84;   98;  119;
     137;  155;  177;  194;  220;  250;  280;  310;  338;  382;
     403;  439;  461;  511;  535;  593;  625;  658;  698;  742;
     790;  842;  898;  958;  983; 1051; 1093; 1139; 1219; 1273 ].

Definition DENSITY_Q : list Z :=
  [   11;   20;   32;   46;   60;   74;   86;  108;  130;  151;
     177;  203;  241;  258;  292;  322;  364;  394;  442;  482;
     509;  565;  611;  661;  715;  751;  805;  868;  908;  982;
    1030; 1112; 1168; 1228; 1283; 1351; 1423; 1499; 1579; 1663 ].

(** The module body: a list of empty lists, one per mode, then the four
    item assignments in the order of the file. *)
Definition DENSITY_init : result (list (list Z)) :=
  d ← Ok ((fun _ => []) <$> ECC_MODES);
  d ← py_setitem d ERROR_CORRECT_L DENSITY_L;
  d ← py_setitem d ERROR_CORRECT_M DENSITY_M;
  d ← py_setitem d ERROR_CORRECT_H DENSITY_H;
  py_setitem d ERROR_CORRECT_Q DENSITY_Q.

Definition DENSITY : list (list Z) :=
  match DENSITY_init with
  | Ok d => d
  | Raise _ => []
  end.

(** ** qrrr.py *)

Definition MAX_FPS : Z := 20.

Definition MAX_VERSION : result Z := len <$> py_getitem DENSITY 0.

(** The choices [main] gives to [--version] and to [--fps]: the parser
    rejects any other value before a [Qrrr] is made. *)
Definition version_choices : result (list Z) :=
  max_version ← MAX_VERSION;
  Ok (range_from 1 (max_version + 1)).

Definition fps_choices : list Z := range_from 1 (MAX_FPS + 1).

(** ** Images

    [PIL] and the encoder are not part of the program.  An image is kept as
    the term of the operations that produced it, which is all the program can
    observe of it besides its size:
    - [Image_new size] is [PIL.Image.new(mode="RGB", size=size, color="white")];
    - [rectangle im xy] is [im] after
      [PIL.ImageDraw.Draw(im).rectangle(xy, fill="black")];
    - [paste im src box] is [im] after [im.paste(src, box)];
    - [make_image qr] is [qr.make_image()] in the state [qr] of the encoder. *)

Inductive Image : Type :=
| Image_new (size : Z * Z)
| rectangle (im : Image) (xy : Z * Z * Z * Z)
| paste (im src : Image) (box : Z * Z)
| make_image (qr : QRCode).

(** Modelled from the spec: the raster size of the image the external encoder
    returns, a square of [box_size * (4 * version + 2 * border + 17)] raster
    units per side.  Drawing and pasting do not resize an image. *)
Fixpoint Image_size (im : Image) : Z * Z :=
  match im with
  | Image_new size => size
  | rectangle im' _ => Image_size im'
  | paste im' _ _ => Image_size im'
  | make_image qr =>
      let side := box_size qr * (4 * _version qr + 2 * border qr + 17) in
      (side, side)
  end.

Module QrrrFrameFactory.

Record t : Type := mk {
  qr : QRCode;
  chunk_size : Z
}.

(** Line 31, the right-hand side: [DENSITY[ecc][version - 1]]. *)
Definition capacity (ecc version : Z) : result Z :=
  row ← py_getitem DENSITY ecc;
  py_getitem row (version - 1).

Definition __init__ (qr : QRCode) : result t :=
  chunk_size ← capacity (error_correction qr) (_version qr);
  Ok (mk qr chunk_size).

(** Lines 52 to 56, the geometry of the bar in modules. *)
Definition im_width (self : t) : Z :=
  4 * _version (qr self) + 2 * border (qr self) + 17.

Definition im_height (self : t) : Z :=
  Z.max 2 ((4 * _version (qr self)) / 10) + border (qr self).

Definition bar_width (self : t) (progress : Q) : Z :=
  py_int (progress * inject_Z (im_width self - 2 * border (qr self))).

Definition bar_height (self : t) : Z :=
  im_height self - border (qr self).

Definition _get_progressbar_image (self : t) (progress : Q) : Image :=
  let im_width := im_width self in
  let im_height := im_height self in
  let bar_width := bar_width self progress in
  let bar_height := bar_height self in
  let x0 := box_size (qr self) * border (qr self) in
  let y0 := 0 in
  let x1 := box_size (qr self) * bar_width + x0 in
  let y1 := box_size (qr self) * bar_height + y0 in
  let size := (box_size (qr self) * im_width,
               box_size (qr self) * im_height) in
  let progressbar := Image_new size in
  if 0 <? bar_width
  then rectangle progressbar (x0, y0, x1, y1)
  else progressbar.

(** The encoder object is updated in place: the factory comes back with
    the image. *)
Definition _get_qrcode_image (self : t) (data : bytes)
  : result (Image * t) :=
  if len data <=? chunk_size self
  then
    let qr1 := clear (qr self) in
    let qr2 := add_data qr1 data in
    Ok (make_image qr2, mk qr2 (chunk_size self))
  else Raise AssertionError.

Definition build_single_frame (self : t) (data : bytes) (progress : Q)
  : result (Image * t) :=
  '(code, self) ← _get_qrcode_image self data;
  let pbar := _get_progressbar_image self progress in
  let framesize :=
    ((Image_size code).1, (Image_size code).2 + (Image_size pbar).2) in
  let frame := Image_new framesize in
  let frame := paste frame code (0, 0) in
  let frame := paste frame pbar (0, (Image_size code).2) in
  Ok (frame, self).

(** Line 123. *)
Definition num_chunks (self : t) (data : bytes) : result Z :=
  py_floordiv (len data + chunk_size self - 1) (chunk_size self).

(** Line 127, the slice of iteration [i]. *)
Definition chunk_at (self : t) (data : bytes) (i : Z) : bytes :=
  py_slice data (chunk_size self * i) (chunk_size self * (i + 1)).

(** Line 128, the progress of iteration [i]. *)
Definition progress_at (num_chunks i : Z) : result Q :=
  py_float <$> py_truediv i (num_chunks - 1).

(** Lines 127 to 129, the body of the loop: the frames so far and the
    factory go in, and come out with one more frame. *)
Definition loop_body (data : bytes) (num_chunks : Z)
  : list Image * t -> Z -> result (list Image * t) :=
  fun '(frames, self) i =>
    let chunk := chunk_at self data i in
    progress ← progress_at num_chunks i;
    '(frame, self) ← build_single_frame self chunk progress;
    Ok (frames ++ [frame], self).

Definition build_all_frames (self : t) (data : bytes)
  : result (list Image * t) :=
  num_chunks ← num_chunks self data;
  let frames := [] in
  for_each (loop_body data num_chunks) (frames, self) (range num_chunks).

End QrrrFrameFactory.

(** ** The progress bar on binary64 floats

    Lines 52 to 74 once more, with [progress] a binary64 float and the
    product of line 55 rounded as Python rounds it. *)

Module binary64_bar.

Definition bar_width (self : QrrrFrameFactory.t) (progress : spec_float)
  : result Z :=
  width ← binary64.of_int
            (QrrrFrameFactory.im_width self
             - 2 * border (QrrrFrameFactory.qr self));
  binary64.to_int (binary64.mul progress width).

Definition _get_progressbar_image (self : QrrrFrameFactory.t)
    (progress : spec_float) : result Image :=
  let qr := QrrrFrameFactory.qr self in
  let im_width := QrrrFrameFactory.im_width self in
  let im_height := QrrrFrameFactory.im_height self in
  bar_width ← bar_width self progress;
  let bar_height := QrrrFrameFactory.bar_height self in
  let x0 := box_size qr * border qr in
  let y0 := 0 in
  let x1 := box_size qr * bar_width + x0 in
  let y1 := box_size qr * bar_height + y0 in
  let size := (box_size qr * im_width, box_size qr * im_height) in
  let progressbar := Image_new size in
  Ok (if 0 <? bar_width
      then rectangle progressbar (x0, y0, x1, y1)
      else progressbar).

End binary64_bar.

(** ** The file system

    [files] holds the readable files by path, [written] the animations saved
    so far: frames in order, the delay of a frame in milliseconds, and the
    loop count (0 loops forever).  An animation is kept as what was handed to
    [save], apart from the readable contents: the bytes the image library
    writes for it, which a later read of that path would return, are outside
    the program. *)

Record Gif : Type := mkGif {
  gif_frames : list Image;
  gif_duration : Z;
  gif_loop : Z
}.

Record World : Type := mkWorld {
  files : gmap string bytes;
  written : gmap string Gif
}.

Module Qrrr.

(** [self.qr] is the object handed to the factory, and only the factory
    uses it afterwards: it is kept there. *)
Record t : Type := mk {
  framelength : Z;
  factory : QrrrFrameFactory.t
}.

Definition __init__ (version ecc fps : Z) : result t :=
  framelength ← py_floordiv 1000 fps;
  qr ← qrcode.__init__ version ecc;
  factory ← QrrrFrameFactory.__init__ qr;
  Ok (mk framelength factory).

Section os_path.

(** [os.path.split(p)[-1]], [os.path.splitext(p)[0]], [os.path.abspath]. *)
Variable split_tail : string -> string.
Variable splitext_root : string -> string.
Variable abspath : string -> string.

(** The body of the [with] block up to the call of [save]: the frames
    and the animation handed to [save]. *)
Definition build_gif (self : t) (content : bytes) : result (Gif * t) :=
  '(qrrr, fac) ← QrrrFrameFactory.build_all_frames (factory self) content;
  first ← py_getitem qrrr 0;
  let append_images := py_slice qrrr 1 (len qrrr) in
  Ok (mkGif (first :: append_images) (framelength self) 0,
      mk (framelength self) fac).

(** [open] is modelled on the paths of [files]: a path that is not there
    stands for a missing file.  The exceptions of the model are raised
    before [save] is called and leave the file system as it was. *)
Definition build (self : t) (w : World) (source : string)
  : World * result (string * t) :=
  let outfile := split_tail source in
  let outfile := splitext_root outfile in
  let outfile := (outfile ++ ".qrrr.gif")%string in
  match files w !! source with
  | None => (w, Raise FileNotFoundError)
  | Some content =>
      match build_gif self content with
      | Ok (gif, self') =>
          (mkWorld (files w) (<[outfile := gif]> (written w)),
           Ok (abspath outfile, self'))
      | Raise e => (w, Raise e)
      end
  end.

End os_path.

End Qrrr.

(** ** The command line

    [argparse] is outside the program: [main] is modelled from the parsed
    arguments on, which the parser has checked against the choices
    [ECC_MODES], [fps_choices] and [version_choices]. *)

(** [d[key]] on a dictionary written as a literal with distinct keys;
    [None] stands for the [KeyError]. *)
Fixpoint py_dict_getitem {V} (d : list (string * V)) (key : string)
  : option V :=
  match d with
  | [] => None
  | (k, v) :: d' => if String.eqb k key then Some v else py_dict_getitem d' key
  end.

Module Namespace.

Record t : Type := mk {
  ecc : string;
  fps : Z;
  version : Z;
  source : string
}.

End Namespace.

(** How [main] ends: with the line it prints, or with an exception, which
    may be the [KeyError] of [ECC_MAP]. *)
Inductive main_exn : Type :=
| KeyError (key : string)
| Uncaught (e : exn).

Inductive main_result : Type :=
| Printed (line : string)
| Failed (e : main_exn).

Section main_program.

Variable split_tail : string -> string.
Variable splitext_root : string -> string.
Variable abspath : string -> string.

(** Lines 198 to 205; [os.path.isfile] holds of the paths of [files]. *)
Definition main (args : Namespace.t) (w : World) : World * main_result :=
  match files w !! Namespace.source args with
  | None => (w, Failed (Uncaught FileNotFoundError))
  | Some _ =>
      match py_dict_getitem ECC_MAP (Namespace.ecc args) with
      | None => (w, Failed (KeyError (Namespace.ecc args)))
      | Some level =>
          match Qrrr.__init__ (Namespace.version args) level
                              (Namespace.fps args) with
          | Raise e => (w, Failed (Uncaught e))
          | Ok qrrr =>
              match Qrrr.build split_tail splitext_root abspath qrrr w
                               (Namespace.source args) with
              | (w', Ok (generated_file, _)) =>
                  (w', Printed ("Generated QRRR code:"
                                ++ String (Ascii.ascii_of_nat 9)
                                     generated_file)%string)
              | (w', Raise e) => (w', Failed (Uncaught e))
              end
          end
      end
  end.

End main_program.

(** ** Vocabulary of the properties *)

(** The error-correction levels of [ECC_MAP]. *)
Definition recognized (ecc : Z) : Prop := ecc ∈ ECC_MAP.*2.

(** A configuration the command line can produce, with a raster that has
    boxes of a positive size and a border that is not negative. *)
Definition valid_config (qr : QRCode) : Prop :=
  recognized (error_correction qr) /\
  1 <= _version qr <= 40 /\
  0 < box_size qr /\
  0 <= border qr.

(** The quotient [i / (num_chunks - 1)] of the progress policy. *)
Definition progress_of (num_chunks i : Z) : Q :=
  (inject_Z i / inject_Z (num_chunks - 1))%Q.

(** The frame composed for a chunk: symbol on top, bar beneath. *)
Definition frame_image (self : QrrrFrameFactory.t) (chunk : bytes)
    (progress : Q) : Image :=
  let code := make_image (add_data (clear (QrrrFrameFactory.qr self)) chunk) in
  let pbar := QrrrFrameFactory._get_progressbar_image self progress in
  paste
    (paste
       (Image_new ((Image_size code).1,
                   (Image_size code).2 + (Image_size pbar).2))
       code (0, 0))
    pbar (0, (Image_size code).2).

(** The frame of iteration [i] of [build_all_frames]. *)
Definition frame_at (self : QrrrFrameFactory.t) (data : bytes)
    (num_chunks i : Z) : Image :=
  frame_image self (QrrrFrameFactory.chunk_at self data i)
              (progress_of num_chunks i).

(** The factory once a chunk has been rendered. *)
Definition rendered (self : QrrrFrameFactory.t) (chunk : bytes)
  : QrrrFrameFactory.t :=
  QrrrFrameFactory.mk
    (add_data (clear (QrrrFrameFactory.qr self)) chunk)
    (QrrrFrameFactory.chunk_size self).

(** Two factories with one configuration: they differ in the payload the
    encoder holds at most. *)
Definition same_config (s1 s2 : QrrrFrameFactory.t) : Prop :=
  clear (QrrrFrameFactory.qr s1) = clear (QrrrFrameFactory.qr s2) /\
  QrrrFrameFactory.chunk_size s1 = QrrrFrameFactory.chunk_size s2.

(** One row of checks on the table, for a level and two versions. *)
Definition table_check (ecc v v' : Z) : bool :=
  match QrrrFrameFactory.capacity ecc v,
        QrrrFrameFactory.capacity ecc v',
        QrrrFrameFactory.capacity ERROR_CORRECT_H v,
        QrrrFrameFactory.capacity ERROR_CORRECT_Q v,
        QrrrFrameFactory.capacity ERROR_CORRECT_M v,
        QrrrFrameFactory.capacity ERROR_CORRECT_L v with
  | Ok c, Ok c', Ok h, Ok q, Ok m, Ok l =>
      (0 <? c) && ((v' <? v) || (c <=? c'))
      && (h <=? q) && (q <=? m) && (m <=? l)
  | _, _, _, _, _, _ => false
  end.

(** The versions from 1 to 40. *)
Definition versions : list Z := Z.of_nat <$> seq 1 40.




(** The payloads held by the symbols of an image, in the order they were
    put there. *)
Fixpoint encoded (im : Image) : list bytes :=
  match im with
  | Image_new _ => []
  | rectangle im' _ => encoded im'
  | paste im' src _ => encoded im' ++ encoded src
  | make_image qr => data_list qr
  end.

(** A symbol on top and a bar beneath, on one canvas. *)
Definition stacked (code pbar : Image) : Image :=
  paste
    (paste
       (Image_new ((Image_size code).1,
                   (Image_size code).2 + (Image_size pbar).2))
       code (0, 0))
    pbar (0, (Image_size code).2).

(** The symbol the encoder of a factory makes of one chunk. *)
Definition symbol_of (self : QrrrFrameFactory.t) (chunk : bytes) : Image :=
  make_image (add_data (clear (QrrrFrameFactory.qr self)) chunk).

(** The blank canvas of the bar. *)
Definition bar_background (self : QrrrFrameFactory.t) : Image :=
  Image_new
    (box_size (QrrrFrameFactory.qr self) * QrrrFrameFactory.im_width self,
     box_size (QrrrFrameFactory.qr self) * QrrrFrameFactory.im_height self).

(** The animation [build] saves for a content of more than one chunk. *)
Definition animation (self : Qrrr.t) (content : bytes) (num_chunks : Z)
  : Gif :=
  mkGif (frame_at (Qrrr.factory self) content num_chunks <$> range num_chunks)
        (Qrrr.framelength self) 0.

(** The output file name of [build]. *)
Definition outfile_of (split_tail splitext_root : string -> string)
    (source : string) : string :=
  (splitext_root (split_tail source) ++ ".qrrr.gif")%string.

(** ** Indexing and slicing *)

Section PyList.

Context {A : Type}.
Implicit Types (l : list A) (i a b : Z).

Lemma len_nonneg l : 0 <= len l.
Proof. unfold len. lia. Qed.

Lemma py_getitem_elem l i x : py_getitem l i = Ok x -> x ∈ l.
Proof.
  unfold py_getitem. intros H.
  destruct (_ && _); [|discriminate].
  destruct (l !! _) eqn:E; [|discriminate].
  injection H as <-. eapply list_elem_of_lookup_2, E.
Qed.


Lemma py_getitem_in_range l i :
  0 <= i < len l -> exists x, py_getitem l i = Ok x /\ l !! Z.to_nat i = Some x.
Proof.
  intros H. unfold py_getitem.
  destruct (i <? 0) eqn:E; [lia|].
  destruct (0 <=? i) eqn:E1, (i <? len l) eqn:E2; try lia. simpl.
  destruct (lookup_lt_is_Some_2 l (Z.to_nat i)) as [x Hx].
  { unfold len in H. lia. }
  rewrite Hx. eauto.
Qed.

Lemma py_slice_nonneg l a b :
  0 <= a <= b ->
  py_slice l a b = take (Z.to_nat (b - a)) (drop (Z.to_nat a) l).
Proof.
  intros H. pose proof (len_nonneg l) as Hl. unfold py_slice, slice_bound.
  destruct (a <? 0) eqn:Ea; [lia|]. destruct (b <? 0) eqn:Eb; [lia|].
  destruct (Z.le_gt_cases (len l) a) as [Hge|Hlt].
  - rewrite !drop_ge; [by rewrite !take_nil|unfold len in *; lia..].
  - rewrite (Z.min_l a) by lia.
    destruct (Z.le_gt_cases b (len l)) as [Hb|Hb].
    + by rewrite (Z.min_l b) by lia.
    + rewrite (Z.min_r b) by lia.
      rewrite !take_ge; [done|rewrite length_drop; unfold len in *; lia..].
Qed.

Lemma len_py_slice_nonneg l a b :
  0 <= a <= b ->
  len (py_slice l a b) = Z.min (b - a) (Z.max 0 (len l - a)).
Proof.
  intros H. rewrite py_slice_nonneg by done.
  unfold len. rewrite length_take, length_drop. lia.
Qed.

(** Consecutive slices of one width, put together, are a prefix. *)
Lemma concat_slices l (c k : nat) :
  concat ((fun j : nat => take c (drop (c * j)%nat l)) <$> seq 0 k)
  = take (c * k)%nat l.
Proof.
  induction k as [|k IH].
  - by rewrite Nat.mul_0_r, take_0.
  - rewrite seq_S, fmap_app, concat_app, IH. simpl.
    rewrite app_nil_r, take_take_drop. f_equal. lia.
Qed.

End PyList.


Lemma elem_of_range (n i : Z) : i ∈ range n <-> 0 <= i < n.
Proof.
  unfold range. rewrite list_elem_of_fmap. split.
  - intros (k & -> & Hk). apply list_elem_of_In, in_seq in Hk. lia.
  - intros H. exists (Z.to_nat i). split; [lia|].
    apply list_elem_of_In, in_seq. lia.
Qed.

Lemma len_range (n : Z) : 0 <= n -> len (range n) = n.
Proof. intros H. unfold len, range. rewrite length_fmap, length_seq. lia. Qed.

(** ** The capacity table *)

Lemma DENSITY_init_ok : DENSITY_init = Ok DENSITY.
Proof. reflexivity. Qed.

Lemma recognized_cases (ecc : Z) :
  recognized ecc <->
  ecc = ERROR_CORRECT_L \/ ecc = ERROR_CORRECT_M \/
  ecc = ERROR_CORRECT_H \/ ecc = ERROR_CORRECT_Q.
Proof.
  unfold recognized. simpl. rewrite !elem_of_cons, elem_of_nil. tauto.
Qed.

Lemma elem_of_versions (v : Z) : v ∈ versions <-> 1 <= v <= 40.
Proof.
  unfold versions. rewrite list_elem_of_fmap. split.
  - intros (k & -> & Hk). apply list_elem_of_In, in_seq in Hk. lia.
  - intros H. exists (Z.to_nat v). split; [lia|].
    apply list_elem_of_In, in_seq. lia.
Qed.

Lemma table_check_all :
  forallb
    (fun ecc =>
       forallb (fun v => forallb (table_check ecc v) versions) versions)
    ECC_MAP.*2 = true.
Proof. vm_compute. reflexivity. Qed.

Lemma table_check_true (ecc v v' : Z) :
  recognized ecc -> 1 <= v <= 40 -> 1 <= v' <= 40 ->
  table_check ecc v v' = true.
Proof.
  intros He Hv Hv'.
  pose proof table_check_all as H.
  rewrite forallb_forall in H.
  specialize (H ecc (proj1 (list_elem_of_In _ _) He)).
  rewrite forallb_forall in H.
  specialize (H v (proj1 (list_elem_of_In _ _) (proj2 (elem_of_versions v) Hv))).
  rewrite forallb_forall in H.
  exact (H v' (proj1 (list_elem_of_In _ _) (proj2 (elem_of_versions v') Hv'))).
Qed.

(** Every row of the table has an entry per version, and every entry is
    positive. *)
Lemma DENSITY_row (ecc : Z) :
  recognized ecc ->
  exists row,
    py_getitem DENSITY ecc = Ok row /\ len row = 40 /\ Forall (Z.lt 0) row.
Proof.
  intros He. apply recognized_cases in He.
  destruct He as [-> | [-> | [-> | ->]]]; eexists; (split; [reflexivity|]);
    (split; [reflexivity|]); apply Forall_forall; intros x Hx;
    repeat (apply elem_of_cons in Hx as [-> | Hx]; [reflexivity|]);
    by apply elem_of_nil in Hx.
Qed.

Lemma capacity_row (ecc version : Z) (row : list Z) :
  py_getitem DENSITY ecc = Ok row ->
  QrrrFrameFactory.capacity ecc version = py_getitem row (version - 1).
Proof. intros H. unfold QrrrFrameFactory.capacity. by rewrite H. Qed.

(** A lookup that succeeds returns a positive capacity, whatever the level
    and the version were. *)
Lemma capacity_pos (ecc version c : Z) :
  QrrrFrameFactory.capacity ecc version = Ok c -> 0 < c.
Proof.
  unfold QrrrFrameFactory.capacity. intros H.
  destruct (py_getitem DENSITY ecc) as [row|] eqn:E; [|discriminate].
  simpl in H. apply py_getitem_elem in E. apply py_getitem_elem in H.
  assert (Hall : Forall (Forall (Z.lt 0)) DENSITY).
  { repeat constructor. }
  rewrite Forall_forall in Hall. specialize (Hall _ E).
  rewrite Forall_forall in Hall. exact (Hall _ H).
Qed.

Lemma init_chunk_size (qr : QRCode) (self : QrrrFrameFactory.t) :
  QrrrFrameFactory.__init__ qr = Ok self ->
  QrrrFrameFactory.qr self = qr /\
  QrrrFrameFactory.capacity (error_correction qr) (_version qr)
  = Ok (QrrrFrameFactory.chunk_size self) /\
  0 < QrrrFrameFactory.chunk_size self.
Proof.
  unfold QrrrFrameFactory.__init__. intros H.
  destruct (QrrrFrameFactory.capacity _ _) as [c|] eqn:E; [|discriminate].
  injection H as <-. simpl. eauto using capacity_pos.
Qed.

Lemma init_valid (qr : QRCode) :
  valid_config qr ->
  exists self,
    QrrrFrameFactory.__init__ qr = Ok self /\
    QrrrFrameFactory.qr self = qr /\
    0 < QrrrFrameFactory.chunk_size self.
Proof.
  intros (He & Hv & _).
  destruct (DENSITY_row _ He) as (row & Hrow & Hlen & _).
  destruct (py_getitem_in_range row (_version qr - 1)) as (c & Hc & _); [lia|].
  exists (QrrrFrameFactory.mk qr c).
  assert (Hi : QrrrFrameFactory.__init__ qr = Ok (QrrrFrameFactory.mk qr c)).
  { unfold QrrrFrameFactory.__init__. by rewrite (capacity_row _ _ _ Hrow), Hc. }
  split; [exact Hi|]. apply init_chunk_size in Hi. tauto.
Qed.

Lemma qrcode_init_ok (version ecc : Z) :
  1 <= version <= 40 ->
  qrcode.__init__ version ecc = Ok (qrcode.new version ecc).
Proof.
  intros H. unfold qrcode.__init__, check_version.
  destruct (version <? 1) eqn:E1, (40 <? version) eqn:E2; try lia.
  reflexivity.
Qed.

Lemma qrcode_init_raise (version ecc : Z) :
  ~ (1 <= version <= 40) -> qrcode.__init__ version ecc = Raise ValueError.
Proof.
  intros H. unfold qrcode.__init__, check_version.
  destruct (version <? 1) eqn:E1, (40 <? version) eqn:E2;
    try reflexivity; lia.
Qed.

Lemma qrrr_init_inv (version ecc fps : Z) (self : Qrrr.t) :
  Qrrr.__init__ version ecc fps = Ok self ->
  fps <> 0 /\ 1 <= version <= 40 /\
  Qrrr.framelength self = 1000 / fps /\
  QrrrFrameFactory.__init__ (qrcode.new version ecc)
  = Ok (Qrrr.factory self).
Proof.
  unfold Qrrr.__init__, py_floordiv. intros H.
  destruct (fps =? 0) eqn:E; [discriminate|]. simpl in H.
  destruct (decide (1 <= version <= 40)) as [Hv|Hv].
  - rewrite (qrcode_init_ok version ecc Hv) in H. simpl in H.
    destruct (QrrrFrameFactory.__init__ _) as [fac|] eqn:Ef; [|discriminate].
    injection H as <-. simpl. repeat split; try lia.
  - rewrite (qrcode_init_raise version ecc Hv) in H. discriminate.
Qed.

(** C5. For every recognized error-correction level and every version from
    1 to 40 the table entry [DENSITY[ecc][version - 1]] exists and is
    positive; for a fixed level it does not decrease from a version [v] to a
    later version [v']; and at a fixed version the entries are ordered
    H <= Q <= M <= L. *)
Theorem capacity_positive_monotone_ordered (ecc v v' : Z) :
  recognized ecc -> 1 <= v -> v <= v' -> v' <= 40 ->
  exists c c' h q m l,
    QrrrFrameFactory.capacity ecc v = Ok c /\
    QrrrFrameFactory.capacity ecc v' = Ok c' /\
    QrrrFrameFactory.capacity ERROR_CORRECT_H v = Ok h /\
    QrrrFrameFactory.capacity ERROR_CORRECT_Q v = Ok q /\
    QrrrFrameFactory.capacity ERROR_CORRECT_M v = Ok m /\
    QrrrFrameFactory.capacity ERROR_CORRECT_L v = Ok l /\
    0 < c /\ c <= c' /\ h <= q /\ q <= m /\ m <= l.
Proof.
  intros He H1 H2 H3.
  pose proof (table_check_true ecc v v' He ltac:(lia) ltac:(lia)) as Ht.
  unfold table_check in Ht.
  destruct (QrrrFrameFactory.capacity ecc v) as [c|]; [|discriminate].
  destruct (QrrrFrameFactory.capacity ecc v') as [c'|]; [|discriminate].
  destruct (QrrrFrameFactory.capacity ERROR_CORRECT_H v) as [h|];
    [|discriminate].
  destruct (QrrrFrameFactory.capacity ERROR_CORRECT_Q v) as [q|];
    [|discriminate].
  destruct (QrrrFrameFactory.capacity ERROR_CORRECT_M v) as [m|];
    [|discriminate].
  destruct (QrrrFrameFactory.capacity ERROR_CORRECT_L v) as [l|];
    [|discriminate].
  exists c, c', h, q, m, l.
  rewrite !andb_true_iff, orb_true_iff in Ht.
  destruct Ht as [[[[Hc Hm] Hhq] Hqm] Hml].
  repeat split; try reflexivity; try lia.
Qed.

Lemma capacity_positive_monotone_ordered_witness :
  exists c c' h q m l,
    QrrrFrameFactory.capacity ERROR_CORRECT_Q 3 = Ok c /\
    QrrrFrameFactory.capacity ERROR_CORRECT_Q 7 = Ok c' /\
    QrrrFrameFactory.capacity ERROR_CORRECT_H 3 = Ok h /\
    QrrrFrameFactory.capacity ERROR_CORRECT_Q 3 = Ok q /\
    QrrrFrameFactory.capacity ERROR_CORRECT_M 3 = Ok m /\
    QrrrFrameFactory.capacity ERROR_CORRECT_L 3 = Ok l /\
    0 < c /\ c <= c' /\ h <= q /\ q <= m /\ m <= l.
Proof.
  apply (capacity_positive_monotone_ordered ERROR_CORRECT_Q 3 7).
  - apply recognized_cases. tauto.
  - lia.
  - lia.
  - lia.
Defined.

Lemma version_choices_ok : version_choices = Ok versions.
Proof. reflexivity. Qed.



(** ** Chunking *)

Section Chunking.

Variable self : QrrrFrameFactory.t.
Variable data : bytes.

Local Abbreviation cs := (QrrrFrameFactory.chunk_size self).

Hypothesis cs_pos : 0 < cs.

Lemma num_chunks_ok :
  QrrrFrameFactory.num_chunks self data = Ok ((len data + cs - 1) / cs).
Proof.
  unfold QrrrFrameFactory.num_chunks, py_floordiv. fold cs.
  destruct (cs =? 0) eqn:E; [lia|reflexivity].
Qed.

(** The quotient of line 123 is the least [n] with [len data <= cs * n]. *)
Lemma num_chunks_bounds :
  let n := (len data + cs - 1) / cs in
  0 <= n /\ cs * (n - 1) < len data <= cs * n.
Proof.
  pose proof (len_nonneg data) as Hl. simpl.
  pose proof (Z.div_mod (len data + cs - 1) cs ltac:(lia)) as Hd.
  pose proof (Z.mod_pos_bound (len data + cs - 1) cs cs_pos) as Hm.
  split; [apply Z.div_pos; lia|]. nia.
Qed.

Lemma num_chunks_ceiling :
  (len data + cs - 1) / cs
  = Qceiling (inject_Z (len data) / inject_Z cs).
Proof.
  destruct num_chunks_bounds as [_ [Hlo Hhi]].
  set (n := (len data + cs - 1) / cs) in *.
  set (x := (inject_Z (len data) / inject_Z cs)%Q).
  assert (Hc : (0 < inject_Z cs)%Q)
    by (change 0%Q with (inject_Z 0); rewrite <- Zlt_Qlt; exact cs_pos).
  assert (H1 : (inject_Z (n - 1) < x)%Q).
  { apply Qlt_shift_div_l; [exact Hc|].
    rewrite <- inject_Z_mult, <- Zlt_Qlt. lia. }
  assert (H2 : (x <= inject_Z n)%Q).
  { apply Qle_shift_div_r; [exact Hc|].
    rewrite <- inject_Z_mult, <- Zle_Qle. lia. }
  pose proof (Qle_ceiling x) as H3.
  pose proof (Qceiling_lt x) as H4.
  assert (H5 : (inject_Z (n - 1) < inject_Z (Qceiling x))%Q)
    by (eapply Qlt_le_trans; eassumption).
  assert (H6 : (inject_Z (Qceiling x - 1) < inject_Z n)%Q)
    by (eapply Qlt_le_trans; eassumption).
  rewrite <- Zlt_Qlt in H5, H6. lia.
Qed.

Lemma chunk_at_take (i : Z) :
  0 <= i ->
  QrrrFrameFactory.chunk_at self data i
  = take (Z.to_nat cs) (drop (Z.to_nat cs * Z.to_nat i)%nat data).
Proof.
  intros Hi. unfold QrrrFrameFactory.chunk_at. fold cs.
  rewrite py_slice_nonneg by nia.
  f_equal; [f_equal; lia|f_equal; nia].
Qed.

Lemma len_chunk_at (i : Z) :
  0 <= i ->
  len (QrrrFrameFactory.chunk_at self data i)
  = Z.min cs (Z.max 0 (len data - cs * i)).
Proof.
  intros Hi. unfold QrrrFrameFactory.chunk_at. fold cs.
  rewrite len_py_slice_nonneg by nia. f_equal. lia.
Qed.

Lemma len_chunk_at_le (i : Z) :
  0 <= i -> len (QrrrFrameFactory.chunk_at self data i) <= cs.
Proof. intros Hi. rewrite len_chunk_at by done. lia. Qed.

Lemma concat_chunks (n : Z) :
  len data <= cs * n ->
  concat (QrrrFrameFactory.chunk_at self data <$> range n) = data.
Proof.
  intros Hn. unfold range. rewrite <- list_fmap_compose.
  rewrite (list_fmap_ext _
             (fun j : nat =>
                take (Z.to_nat cs) (drop (Z.to_nat cs * j)%nat data))).
  - rewrite concat_slices. apply take_ge. unfold len in Hn. nia.
  - intros j x _. simpl. rewrite chunk_at_take by lia.
    by rewrite Nat2Z.id.
Qed.

End Chunking.

Lemma valid_config_new (version ecc : Z) :
  recognized ecc -> 1 <= version <= 40 -> valid_config (qrcode.new version ecc).
Proof. intros He Hv. repeat split; simpl; try lia. exact He. Qed.

(** ** Frames *)

Lemma same_config_refl (s : QrrrFrameFactory.t) : same_config s s.
Proof. by split. Qed.

Lemma same_config_rendered (s : QrrrFrameFactory.t) (chunk : bytes) :
  same_config (rendered s chunk) s.
Proof. by split. Qed.

Lemma same_config_trans (s1 s2 s3 : QrrrFrameFactory.t) :
  same_config s1 s2 -> same_config s2 s3 -> same_config s1 s3.
Proof. intros [H1 H2] [H3 H4]. split; congruence. Qed.

Lemma same_config_fields (s1 s2 : QrrrFrameFactory.t) :
  same_config s1 s2 ->
  _version (QrrrFrameFactory.qr s1) = _version (QrrrFrameFactory.qr s2) /\
  box_size (QrrrFrameFactory.qr s1) = box_size (QrrrFrameFactory.qr s2) /\
  border (QrrrFrameFactory.qr s1) = border (QrrrFrameFactory.qr s2).
Proof.
  intros [H _]. unfold clear in H. injection H as H1 H2 H3 H4. tauto.
Qed.

Lemma progressbar_same_config (s1 s2 : QrrrFrameFactory.t) (progress : Q) :
  same_config s1 s2 ->
  QrrrFrameFactory._get_progressbar_image s1 progress
  = QrrrFrameFactory._get_progressbar_image s2 progress.
Proof.
  intros H. apply same_config_fields in H as (Hv & Hb & Hd).
  unfold QrrrFrameFactory._get_progressbar_image, QrrrFrameFactory.bar_width,
    QrrrFrameFactory.bar_height, QrrrFrameFactory.im_height,
    QrrrFrameFactory.im_width.
  by rewrite Hv, Hb, Hd.
Qed.

Lemma frame_image_same_config (s1 s2 : QrrrFrameFactory.t) (chunk : bytes)
    (progress : Q) :
  same_config s1 s2 ->
  frame_image s1 chunk progress = frame_image s2 chunk progress.
Proof.
  intros H. unfold frame_image.
  rewrite (progressbar_same_config s1 s2 progress H).
  destruct H as [-> _]. reflexivity.
Qed.

Lemma get_qrcode_image_ok (s : QrrrFrameFactory.t) (chunk : bytes) :
  len chunk <= QrrrFrameFactory.chunk_size s ->
  QrrrFrameFactory._get_qrcode_image s chunk
  = Ok (make_image (add_data (clear (QrrrFrameFactory.qr s)) chunk),
        rendered s chunk).
Proof.
  intros H. unfold QrrrFrameFactory._get_qrcode_image.
  destruct (len chunk <=? _) eqn:E; [reflexivity|lia].
Qed.

Lemma build_single_frame_ok (s : QrrrFrameFactory.t) (chunk : bytes)
    (progress : Q) :
  len chunk <= QrrrFrameFactory.chunk_size s ->
  QrrrFrameFactory.build_single_frame s chunk progress
  = Ok (frame_image s chunk progress, rendered s chunk).
Proof.
  intros H. unfold QrrrFrameFactory.build_single_frame.
  rewrite (get_qrcode_image_ok s chunk H). simpl.
  unfold frame_image.
  by rewrite (progressbar_same_config _ _ progress (same_config_rendered s chunk)).
Qed.

Lemma progress_at_ok (n i : Z) :
  n <> 1 -> QrrrFrameFactory.progress_at n i = Ok (progress_of n i).
Proof.
  intros H. unfold QrrrFrameFactory.progress_at, py_truediv.
  destruct (n - 1 =? 0) eqn:E; [lia|reflexivity].
Qed.

Lemma for_each_cons {S A} (body : S -> A -> result S) (s : S) (x : A)
    (l : list A) :
  for_each body s (x :: l)
  = match body s x with
    | Ok s' => for_each body s' l
    | Raise e => Raise e
    end.
Proof. reflexivity. Qed.

Section Loop.

Variable self : QrrrFrameFactory.t.
Variable data : bytes.
Variable n : Z.

Hypothesis cs_pos : 0 < QrrrFrameFactory.chunk_size self.
Hypothesis n_not_1 : n <> 1.

Lemma loop_body_ok (frames : list Image) (s : QrrrFrameFactory.t) (i : Z) :
  same_config s self -> 0 <= i ->
  QrrrFrameFactory.loop_body data n (frames, s) i
  = Ok (frames ++ [frame_at self data n i],
        rendered s (QrrrFrameFactory.chunk_at self data i)).
Proof.
  intros Hs Hi. unfold QrrrFrameFactory.loop_body.
  rewrite (progress_at_ok n i n_not_1). simpl.
  assert (Hc : QrrrFrameFactory.chunk_at s data i
               = QrrrFrameFactory.chunk_at self data i).
  { unfold QrrrFrameFactory.chunk_at. by destruct Hs as [_ ->]. }
  rewrite Hc, build_single_frame_ok.
  - simpl. unfold frame_at. by rewrite (frame_image_same_config s self).
  - destruct Hs as [_ ->]. by apply len_chunk_at_le.
Qed.

Lemma for_each_frames (k a : nat) (frames : list Image)
    (s : QrrrFrameFactory.t) :
  same_config s self ->
  exists s',
    for_each (QrrrFrameFactory.loop_body data n) (frames, s)
             (Z.of_nat <$> seq a k)
    = Ok (frames ++ (frame_at self data n <$> (Z.of_nat <$> seq a k)), s') /\
    same_config s' self.
Proof.
  revert a frames s. induction k as [|k IH]; intros a frames s Hs.
  - exists s. simpl. by rewrite app_nil_r.
  - change (Z.of_nat <$> seq a (S k))
      with (Z.of_nat a :: (Z.of_nat <$> seq (S a) k)).
    rewrite for_each_cons, loop_body_ok by (done || lia).
    destruct (IH (S a) (frames ++ [frame_at self data n (Z.of_nat a)])
                 (rendered s (QrrrFrameFactory.chunk_at self data
                                (Z.of_nat a))))
      as (s' & Hfor & Hs').
    { eapply same_config_trans; [apply same_config_rendered|exact Hs]. }
    exists s'. split; [|exact Hs'].
    rewrite Hfor, fmap_cons. by rewrite <- app_assoc.
Qed.

End Loop.

Section AllFrames.

Variable self : QrrrFrameFactory.t.
Variable data : bytes.

Hypothesis cs_pos : 0 < QrrrFrameFactory.chunk_size self.

Lemma build_all_frames_many (n : Z) :
  QrrrFrameFactory.num_chunks self data = Ok n -> n <> 1 ->
  exists s',
    QrrrFrameFactory.build_all_frames self data
    = Ok (frame_at self data n <$> range n, s') /\
    same_config s' self.
Proof.
  intros Hn Hn1. unfold QrrrFrameFactory.build_all_frames.
  rewrite Hn. simpl.
  destruct (for_each_frames self data n cs_pos Hn1 (Z.to_nat n) 0 [] self
              (same_config_refl self)) as (s' & Hfor & Hs').
  exists s'. split; [|exact Hs']. exact Hfor.
Qed.

Lemma build_all_frames_single :
  QrrrFrameFactory.num_chunks self data = Ok 1 ->
  QrrrFrameFactory.build_all_frames self data = Raise ZeroDivisionError.
Proof.
  intros Hn. unfold QrrrFrameFactory.build_all_frames.
  rewrite Hn. reflexivity.
Qed.

Lemma num_chunks_single :
  1 <= len data <= QrrrFrameFactory.chunk_size self ->
  QrrrFrameFactory.num_chunks self data = Ok 1.
Proof.
  intros H. rewrite num_chunks_ok by exact cs_pos. f_equal.
  destruct (num_chunks_bounds self data cs_pos) as (Hn & Hlo & Hhi). nia.
Qed.

End AllFrames.

Lemma num_chunks_empty (self : QrrrFrameFactory.t) :
  0 < QrrrFrameFactory.chunk_size self ->
  QrrrFrameFactory.num_chunks self [] = Ok 0.
Proof.
  intros H. rewrite num_chunks_ok by exact H. f_equal.
  change (len []) with 0. apply Z.div_small. lia.
Qed.

(** C1, on the code. For every valid configuration and every non-empty
    [data], the slices taken by the loop of [build_all_frames] are
    [ceil(len(data) / chunk_size)] in number; every one but the last has
    [chunk_size] bytes, the last has between 1 and [chunk_size] bytes, and
    put together in order they are [data].  With more than one chunk
    [build_all_frames] returns, one frame per slice in order; with a single
    chunk, which is when [data] has at most [chunk_size] bytes, it raises
    [ZeroDivisionError] and returns no frame for the slice it took. *)
Theorem chunks_partition_data (qr : QRCode) (data : bytes) :
  valid_config qr -> 1 <= len data ->
  exists self n,
    QrrrFrameFactory.__init__ qr = Ok self /\
    QrrrFrameFactory.num_chunks self data = Ok n /\
    n = Qceiling (inject_Z (len data)
                  / inject_Z (QrrrFrameFactory.chunk_size self)) /\
    len (QrrrFrameFactory.chunk_at self data <$> range n) = n /\
    (forall i, 0 <= i < n - 1 ->
       len (QrrrFrameFactory.chunk_at self data i)
       = QrrrFrameFactory.chunk_size self) /\
    1 <= len (QrrrFrameFactory.chunk_at self data (n - 1))
      <= QrrrFrameFactory.chunk_size self /\
    concat (QrrrFrameFactory.chunk_at self data <$> range n) = data /\
    (1 < n ->
     exists s',
       QrrrFrameFactory.build_all_frames self data
       = Ok (frame_at self data n <$> range n, s')) /\
    (n = 1 ->
     QrrrFrameFactory.build_all_frames self data = Raise ZeroDivisionError) /\
    (n = 1 <-> len data <= QrrrFrameFactory.chunk_size self).
Proof.
  intros Hv Hd.
  destruct (init_valid qr Hv) as (self & Hinit & _ & Hcs).
  destruct (num_chunks_bounds self data Hcs) as (Hn & Hlo & Hhi).
  pose proof (num_chunks_ok self data Hcs) as Hnum.
  set (cs := QrrrFrameFactory.chunk_size self) in *.
  set (n := (len data + cs - 1) / cs) in *.
  assert (Hn1 : 1 <= n) by nia.
  exists self, n. split; [exact Hinit|].
  split; [exact Hnum|].
  split; [apply num_chunks_ceiling; exact Hcs|].
  split.
  { unfold len at 1. rewrite length_fmap. by apply len_range. }
  split; [|split; [|split; [|split; [|split]]]].
  - intros i Hi. rewrite len_chunk_at by (fold cs; lia). fold cs. nia.
  - rewrite len_chunk_at by (fold cs; lia). fold cs. nia.
  - apply concat_chunks; assumption.
  - intros H1.
    destruct (build_all_frames_many self data Hcs n Hnum ltac:(lia))
      as (s' & Hmany & _).
    by exists s'.
  - intros E. rewrite E in Hnum.
    by apply build_all_frames_single.
  - split; [intros E; nia|]. intros Hle. nia.
Qed.

Lemma chunks_partition_data_witness :
  exists self n,
    QrrrFrameFactory.__init__ (qrcode.new 3 ERROR_CORRECT_L) = Ok self /\
    QrrrFrameFactory.num_chunks self [x41] = Ok n /\
    n = Qceiling (inject_Z (len [x41])
                  / inject_Z (QrrrFrameFactory.chunk_size self)) /\
    len (QrrrFrameFactory.chunk_at self [x41] <$> range n) = n /\
    (forall i, 0 <= i < n - 1 ->
       len (QrrrFrameFactory.chunk_at self [x41] i)
       = QrrrFrameFactory.chunk_size self) /\
    1 <= len (QrrrFrameFactory.chunk_at self [x41] (n - 1))
      <= QrrrFrameFactory.chunk_size self /\
    concat (QrrrFrameFactory.chunk_at self [x41] <$> range n) = [x41] /\
    (1 < n ->
     exists s',
       QrrrFrameFactory.build_all_frames self [x41]
       = Ok (frame_at self [x41] n <$> range n, s')) /\
    (n = 1 ->
     QrrrFrameFactory.build_all_frames self [x41] = Raise ZeroDivisionError) /\
    (n = 1 <-> len [x41] <= QrrrFrameFactory.chunk_size self).
Proof.
  apply (chunks_partition_data (qrcode.new 3 ERROR_CORRECT_L) [x41]).
  - apply valid_config_new; [apply recognized_cases; tauto | lia].
  - unfold len. simpl. lia.
Defined.

(** ** Progress *)

Section Progress.

Variable n : Z.
Hypothesis n_gt_1 : 1 < n.

Lemma denominator_pos : (0 < inject_Z (n - 1))%Q.
Proof. change 0%Q with (inject_Z 0). rewrite <- Zlt_Qlt. lia. Qed.

Lemma progress_of_first : (progress_of n 0 == 0)%Q.
Proof. unfold progress_of, Qdiv. apply Qmult_0_l. Qed.

Lemma progress_of_last : (progress_of n (n - 1) == 1)%Q.
Proof.
  unfold progress_of, Qdiv. apply Qmult_inv_r.
  intros H. pose proof denominator_pos as Hd. rewrite H in Hd.
  by apply Qlt_irrefl in Hd.
Qed.

Lemma progress_of_lt (i j : Z) :
  i < j -> (progress_of n i < progress_of n j)%Q.
Proof.
  intros H. unfold progress_of, Qdiv.
  apply Qmult_lt_compat_r.
  - apply Qinv_lt_0_compat, denominator_pos.
  - by rewrite <- Zlt_Qlt.
Qed.

Lemma progress_of_fraction (i : Z) :
  (progress_of n i == i # Z.to_pos (n - 1))%Q.
Proof.
  unfold progress_of. rewrite (Qmake_Qdiv i (Z.to_pos (n - 1))).
  rewrite Z2Pos.id by lia. reflexivity.
Qed.

End Progress.

(** C2, on the code. For a valid factory and [data] of 1 to [chunk_size]
    bytes, [num_chunks] is 1 and [build_all_frames] raises
    [ZeroDivisionError] in its first iteration, at [0 / (1 - 1)]: it returns
    no frame, where the claim asks for one frame of progress 1.0. *)
Theorem single_chunk_divides_by_zero (qr : QRCode)
    (self : QrrrFrameFactory.t) (data : bytes) :
  QrrrFrameFactory.__init__ qr = Ok self ->
  1 <= len data -> len data <= QrrrFrameFactory.chunk_size self ->
  QrrrFrameFactory.num_chunks self data = Ok 1 /\
  QrrrFrameFactory.progress_at 1 0 = Raise ZeroDivisionError /\
  QrrrFrameFactory.build_all_frames self data = Raise ZeroDivisionError.
Proof.
  intros Hinit H1 H2. apply init_chunk_size in Hinit as (_ & _ & Hcs).
  assert (Hn : QrrrFrameFactory.num_chunks self data = Ok 1)
    by (apply num_chunks_single; [exact Hcs|lia]).
  split; [exact Hn|]. split; [reflexivity|].
  by apply build_all_frames_single.
Qed.

Lemma single_chunk_divides_by_zero_witness :
  QrrrFrameFactory.num_chunks
    (QrrrFrameFactory.mk (qrcode.new 3 ERROR_CORRECT_L) 53) [x41] = Ok 1 /\
  QrrrFrameFactory.progress_at 1 0 = Raise ZeroDivisionError /\
  QrrrFrameFactory.build_all_frames
    (QrrrFrameFactory.mk (qrcode.new 3 ERROR_CORRECT_L) 53) [x41]
  = Raise ZeroDivisionError.
Proof.
  apply (single_chunk_divides_by_zero (qrcode.new 3 ERROR_CORRECT_L)
           (QrrrFrameFactory.mk (qrcode.new 3 ERROR_CORRECT_L) 53) [x41]).
  - reflexivity.
  - unfold len. simpl. lia.
  - unfold len. simpl. lia.
Defined.

(** C3. When [data] makes more than one chunk, [build_all_frames] returns
    one frame per chunk, frame [i] built with progress
    [i / (num_chunks - 1)]: the first progress is 0, the last is 1, and the
    progress grows strictly from a frame to any later one. *)
Theorem progress_sequence (qr : QRCode) (self : QrrrFrameFactory.t)
    (data : bytes) (n : Z) :
  QrrrFrameFactory.__init__ qr = Ok self ->
  QrrrFrameFactory.num_chunks self data = Ok n ->
  1 < n ->
  (exists s',
     QrrrFrameFactory.build_all_frames self data
     = Ok (frame_at self data n <$> range n, s')) /\
  len (frame_at self data n <$> range n) = n /\
  (forall i, 0 <= i <= n - 1 ->
     QrrrFrameFactory.progress_at n i = Ok (progress_of n i) /\
     (progress_of n i == i # Z.to_pos (n - 1))%Q) /\
  (progress_of n 0 == 0)%Q /\
  (progress_of n (n - 1) == 1)%Q /\
  (forall i j, 0 <= i -> i < j -> j <= n - 1 ->
     (progress_of n i < progress_of n j)%Q).
Proof.
  intros Hinit Hn H1. apply init_chunk_size in Hinit as (_ & _ & Hcs).
  split.
  { destruct (build_all_frames_many self data Hcs n Hn ltac:(lia))
      as (s' & Hs' & _). by exists s'. }
  split.
  { unfold len at 1. rewrite length_fmap. apply len_range. lia. }
  split.
  { intros i Hi. split; [apply progress_at_ok; lia|].
    by apply progress_of_fraction. }
  split; [apply progress_of_first|].
  split; [by apply progress_of_last|].
  intros i j _ Hij _. by apply progress_of_lt.
Qed.

Lemma progress_sequence_witness :
  (exists s',
     QrrrFrameFactory.build_all_frames
       (QrrrFrameFactory.mk (qrcode.new 1 ERROR_CORRECT_H) 7)
       (repeat x2a 15%nat)
     = Ok (frame_at (QrrrFrameFactory.mk (qrcode.new 1 ERROR_CORRECT_H) 7)
             (repeat x2a 15%nat) 3 <$> range 3, s')) /\
  len (frame_at (QrrrFrameFactory.mk (qrcode.new 1 ERROR_CORRECT_H) 7)
         (repeat x2a 15%nat) 3 <$> range 3) = 3 /\
  (forall i, 0 <= i <= 3 - 1 ->
     QrrrFrameFactory.progress_at 3 i = Ok (progress_of 3 i) /\
     (progress_of 3 i == i # Z.to_pos (3 - 1))%Q) /\
  (progress_of 3 0 == 0)%Q /\
  (progress_of 3 (3 - 1) == 1)%Q /\
  (forall i j, 0 <= i -> i < j -> j <= 3 - 1 ->
     (progress_of 3 i < progress_of 3 j)%Q).
Proof.
  apply (progress_sequence (qrcode.new 1 ERROR_CORRECT_H)
           (QrrrFrameFactory.mk (qrcode.new 1 ERROR_CORRECT_H) 7)
           (repeat x2a 15%nat) 3).
  - reflexivity.
  - reflexivity.
  - lia.
Defined.

(** ** Rendering a chunk *)

(** C6. [_get_qrcode_image] raises [AssertionError] when the chunk is longer
    than [chunk_size]; otherwise it returns the image the encoder makes of
    exactly this chunk, whole, whatever the encoder held before. *)
Theorem qrcode_image_checks_capacity (self : QrrrFrameFactory.t)
    (data : bytes) :
  (QrrrFrameFactory.chunk_size self < len data ->
   QrrrFrameFactory._get_qrcode_image self data = Raise AssertionError) /\
  (len data <= QrrrFrameFactory.chunk_size self ->
   exists code self',
     QrrrFrameFactory._get_qrcode_image self data = Ok (code, self') /\
     code = make_image (QrrrFrameFactory.qr self') /\
     data_list (QrrrFrameFactory.qr self') = [data] /\
     same_config self' self).
Proof.
  split; intros H.
  - unfold QrrrFrameFactory._get_qrcode_image.
    destruct (len data <=? _) eqn:E; [lia|reflexivity].
  - eexists _, _. split; [by apply get_qrcode_image_ok|].
    split; [reflexivity|]. split; [reflexivity|].
    apply same_config_rendered.
Qed.

Lemma qrcode_image_checks_capacity_witness :
  QrrrFrameFactory._get_qrcode_image
    (QrrrFrameFactory.mk (qrcode.new 1 ERROR_CORRECT_H) 7)
    (repeat x2a 8%nat) = Raise AssertionError /\
  exists code self',
    QrrrFrameFactory._get_qrcode_image
      (QrrrFrameFactory.mk (qrcode.new 1 ERROR_CORRECT_H) 7)
      (repeat x2a 7%nat) = Ok (code, self') /\
    code = make_image (QrrrFrameFactory.qr self') /\
    data_list (QrrrFrameFactory.qr self') = [repeat x2a 7%nat] /\
    same_config self' (QrrrFrameFactory.mk (qrcode.new 1 ERROR_CORRECT_H) 7).
Proof.
  split.
  - apply (proj1 (qrcode_image_checks_capacity
                    (QrrrFrameFactory.mk (qrcode.new 1 ERROR_CORRECT_H) 7)
                    (repeat x2a 8%nat))).
    unfold len. simpl. lia.
  - apply (proj2 (qrcode_image_checks_capacity
                    (QrrrFrameFactory.mk (qrcode.new 1 ERROR_CORRECT_H) 7)
                    (repeat x2a 7%nat))).
    unfold len. simpl. lia.
Defined.

(** C7. For a valid configuration and every [data], each slice the loop of
    [build_all_frames] takes has at most [chunk_size] bytes, so
    [_get_qrcode_image] accepts it in whatever state the encoder is, and
    [build_all_frames] never ends in the [AssertionError] of the capacity
    check. *)
Theorem chunking_never_violates_capacity (qr : QRCode) (data : bytes) :
  valid_config qr ->
  exists self,
    QrrrFrameFactory.__init__ qr = Ok self /\
    (forall i, 0 <= i ->
       len (QrrrFrameFactory.chunk_at self data i)
       <= QrrrFrameFactory.chunk_size self) /\
    (forall i s, 0 <= i -> same_config s self ->
       QrrrFrameFactory._get_qrcode_image s
         (QrrrFrameFactory.chunk_at self data i)
       <> Raise AssertionError) /\
    QrrrFrameFactory.build_all_frames self data <> Raise AssertionError.
Proof.
  intros Hv. destruct (init_valid qr Hv) as (self & Hinit & _ & Hcs).
  exists self. split; [exact Hinit|].
  split; [intros i Hi; by apply len_chunk_at_le|].
  split.
  - intros i s Hi Hs. rewrite get_qrcode_image_ok; [discriminate|].
    destruct Hs as [_ ->]. by apply len_chunk_at_le.
  - pose proof (num_chunks_ok self data Hcs) as Hn.
    destruct (decide ((len data + QrrrFrameFactory.chunk_size self - 1)
                      / QrrrFrameFactory.chunk_size self = 1)) as [E|E].
    + rewrite E in Hn. rewrite (build_all_frames_single self data Hn).
      discriminate.
    + destruct (build_all_frames_many self data Hcs _ Hn E) as (s' & -> & _).
      discriminate.
Qed.

Lemma chunking_never_violates_capacity_witness :
  exists self,
    QrrrFrameFactory.__init__ (qrcode.new 40 ERROR_CORRECT_H) = Ok self /\
    (forall i, 0 <= i ->
       len (QrrrFrameFactory.chunk_at self (repeat x2a 3000%nat) i)
       <= QrrrFrameFactory.chunk_size self) /\
    (forall i s, 0 <= i -> same_config s self ->
       QrrrFrameFactory._get_qrcode_image s
         (QrrrFrameFactory.chunk_at self (repeat x2a 3000%nat) i)
       <> Raise AssertionError) /\
    QrrrFrameFactory.build_all_frames self (repeat x2a 3000%nat)
    <> Raise AssertionError.
Proof.
  apply (chunking_never_violates_capacity (qrcode.new 40 ERROR_CORRECT_H)
           (repeat x2a 3000%nat)).
  apply valid_config_new; [apply recognized_cases; tauto | lia].
Defined.

(** ** The progress bar *)

Lemma py_int_floor (x : Q) : (0 <= x)%Q -> py_int x = Qfloor x.
Proof.
  destruct x as [num den]. unfold Qle, py_int, Qfloor. simpl. intros H.
  apply Z.quot_div_nonneg; lia.
Qed.

Lemma progressbar_size (self : QrrrFrameFactory.t) (progress : Q) :
  Image_size (QrrrFrameFactory._get_progressbar_image self progress)
  = (box_size (QrrrFrameFactory.qr self) * QrrrFrameFactory.im_width self,
     box_size (QrrrFrameFactory.qr self) * QrrrFrameFactory.im_height self).
Proof.
  unfold QrrrFrameFactory._get_progressbar_image.
  by destruct (0 <? _).
Qed.

(** *** The product of line 55 in binary64 *)
















(** ** Frame geometry *)

(** C9. For every configuration, every chunk that fits and every progress,
    the bar image is [box_size * (4 * version + 2 * border + 17)] wide, as
    wide as the symbol image, and
    [box_size * (max(2, floor(4 * version / 10)) + border)] high; the frame
    is as wide as the symbol image and as high as the symbol image and the
    bar image together. *)
Theorem frame_geometry (self : QrrrFrameFactory.t) (data : bytes)
    (progress : Q) :
  len data <= QrrrFrameFactory.chunk_size self ->
  let qr := QrrrFrameFactory.qr self in
  exists code frame self',
    QrrrFrameFactory._get_qrcode_image self data = Ok (code, self') /\
    QrrrFrameFactory.build_single_frame self data progress
    = Ok (frame, self') /\
    let pbar := QrrrFrameFactory._get_progressbar_image self' progress in
    Image_size pbar
    = (box_size qr * (4 * _version qr + 2 * border qr + 17),
       box_size qr * (Z.max 2 (4 * _version qr / 10) + border qr)) /\
    (Image_size pbar).1 = (Image_size code).1 /\
    (Image_size frame).1 = (Image_size code).1 /\
    (Image_size frame).2 = (Image_size code).2 + (Image_size pbar).2.
Proof.
  intros H. simpl.
  exists (make_image (add_data (clear (QrrrFrameFactory.qr self)) data)).
  exists (frame_image self data progress), (rendered self data).
  split; [by apply get_qrcode_image_ok|].
  split; [by apply build_single_frame_ok|].
  unfold frame_image. simpl. rewrite !progressbar_size.
  unfold QrrrFrameFactory.im_width, QrrrFrameFactory.im_height. simpl.
  repeat split.
Qed.

Lemma frame_geometry_witness :
  let self := QrrrFrameFactory.mk (qrcode.new 3 ERROR_CORRECT_L) 53 in
  let data := repeat x2a 53%nat in
  let progress := (1 # 3)%Q in
  let qr := QrrrFrameFactory.qr self in
  exists code frame self',
    QrrrFrameFactory._get_qrcode_image self data = Ok (code, self') /\
    QrrrFrameFactory.build_single_frame self data progress
    = Ok (frame, self') /\
    let pbar := QrrrFrameFactory._get_progressbar_image self' progress in
    Image_size pbar
    = (box_size qr * (4 * _version qr + 2 * border qr + 17),
       box_size qr * (Z.max 2 (4 * _version qr / 10) + border qr)) /\
    (Image_size pbar).1 = (Image_size code).1 /\
    (Image_size frame).1 = (Image_size code).1 /\
    (Image_size frame).2 = (Image_size code).2 + (Image_size pbar).2.
Proof.
  apply (frame_geometry
           (QrrrFrameFactory.mk (qrcode.new 3 ERROR_CORRECT_L) 53)
           (repeat x2a 53%nat) (1 # 3)%Q).
  unfold len. simpl. lia.
Defined.

(** ** Empty input *)

(** C10. For an empty [data] [build_all_frames] computes 0 chunks and
    returns the empty list of frames; [Qrrr.build] on a source file that
    exists and is empty then fails with [IndexError] at the first frame and
    leaves the file system as it was: no animation is written. *)
Theorem empty_source_builds_nothing
    (split_tail splitext_root abspath : string -> string)
    (version ecc fps : Z) (self : Qrrr.t) (w : World) (source : string) :
  Qrrr.__init__ version ecc fps = Ok self ->
  files w !! source = Some [] ->
  QrrrFrameFactory.num_chunks (Qrrr.factory self) [] = Ok 0 /\
  QrrrFrameFactory.build_all_frames (Qrrr.factory self) []
  = Ok ([], Qrrr.factory self) /\
  Qrrr.build split_tail splitext_root abspath self w source
  = (w, Raise IndexError).
Proof.
  intros Hinit Hsrc.
  assert (Hcs : 0 < QrrrFrameFactory.chunk_size (Qrrr.factory self)).
  { apply qrrr_init_inv in Hinit as (_ & _ & _ & E).
    by apply init_chunk_size in E as (_ & _ & ?). }
  pose proof (num_chunks_empty _ Hcs) as Hn.
  assert (Hall : QrrrFrameFactory.build_all_frames (Qrrr.factory self) []
                 = Ok ([], Qrrr.factory self)).
  { unfold QrrrFrameFactory.build_all_frames. by rewrite Hn. }
  split; [exact Hn|]. split; [exact Hall|].
  unfold Qrrr.build, Qrrr.build_gif. unfold bytes in *.
  rewrite Hsrc, Hall. reflexivity.
Qed.

Lemma empty_source_builds_nothing_witness :
  let self :=
    Qrrr.mk 200 (QrrrFrameFactory.mk (qrcode.new 3 ERROR_CORRECT_L) 53) in
  let w := mkWorld {[ "empty.bin"%string := [] ]} ∅ in
  QrrrFrameFactory.num_chunks (Qrrr.factory self) [] = Ok 0 /\
  QrrrFrameFactory.build_all_frames (Qrrr.factory self) []
  = Ok ([], Qrrr.factory self) /\
  Qrrr.build id id id self w "empty.bin"%string = (w, Raise IndexError).
Proof.
  apply (empty_source_builds_nothing id id id 3 ERROR_CORRECT_L 5
           (Qrrr.mk 200 (QrrrFrameFactory.mk (qrcode.new 3 ERROR_CORRECT_L) 53))
           (mkWorld {[ "empty.bin"%string := [] ]} ∅) "empty.bin"%string).
  - reflexivity.
  - reflexivity.
Defined.

(** * Further properties of the program *)

(** ** Where the bytes go *)

Lemma py_getitem_lookup {A} (l : list A) (i : Z) :
  0 <= i < len l ->
  py_getitem l i
  = match l !! Z.to_nat i with
    | Some x => Ok x
    | None => Raise IndexError
    end.
Proof.
  intros H. unfold py_getitem.
  destruct (i <? 0) eqn:E; [lia|].
  by destruct (0 <=? i) eqn:E1, (i <? len l) eqn:E2; try lia.
Qed.

(** X1. The byte at position [p] of [data] is the byte at offset
    [p % chunk_size] of the slice of iteration [p // chunk_size], and that
    iteration is one of the [num_chunks] the loop runs. *)
Theorem byte_lands_in_its_chunk (self : QrrrFrameFactory.t) (data : bytes)
    (p : Z) :
  0 < QrrrFrameFactory.chunk_size self ->
  0 <= p < len data ->
  let cs := QrrrFrameFactory.chunk_size self in
  py_getitem (QrrrFrameFactory.chunk_at self data (p / cs)) (p mod cs)
  = py_getitem data p /\
  exists n,
    QrrrFrameFactory.num_chunks self data = Ok n /\ p / cs ∈ range n.
Proof.
  intros Hcs Hp. simpl.
  set (cs := QrrrFrameFactory.chunk_size self) in *.
  pose proof (Z.div_mod p cs ltac:(lia)) as Hdm.
  pose proof (Z.mod_pos_bound p cs Hcs) as Hm.
  assert (Hq : 0 <= p / cs) by (apply Z.div_pos; lia).
  split.
  - rewrite !py_getitem_lookup.
    + rewrite chunk_at_take by (fold cs; lia). fold cs.
      rewrite lookup_take_lt by lia. rewrite lookup_drop.
      rewrite <- Z2Nat.inj_mul, <- Z2Nat.inj_add by nia.
      by rewrite <- Hdm.
    + lia.
    + rewrite len_chunk_at by (fold cs; lia). fold cs. nia.
  - eexists. split; [by apply num_chunks_ok|]. fold cs.
    apply elem_of_range.
    destruct (num_chunks_bounds self data Hcs) as (_ & _ & Hhi).
    fold cs in Hhi. split; [exact Hq|]. nia.
Qed.

Lemma byte_lands_in_its_chunk_witness :
  let self := QrrrFrameFactory.mk (qrcode.new 1 ERROR_CORRECT_H) 7 in
  let data := [x00; x01; x02; x03; x04; x05; x06; x07; x08; x09] in
  let cs := QrrrFrameFactory.chunk_size self in
  py_getitem (QrrrFrameFactory.chunk_at self data (8 / cs)) (8 mod cs)
  = py_getitem data 8 /\
  exists n,
    QrrrFrameFactory.num_chunks self data = Ok n /\ 8 / cs ∈ range n.
Proof.
  apply (byte_lands_in_its_chunk
           (QrrrFrameFactory.mk (qrcode.new 1 ERROR_CORRECT_H) 7)
           [x00; x01; x02; x03; x04; x05; x06; x07; x08; x09] 8).
  - simpl. lia.
  - unfold len. simpl. lia.
Defined.

(** X2. When [data] has [k] times [chunk_size] bytes and [r] more, with
    [r] below [chunk_size], the loop runs [k] times if [r] is 0 and [k + 1]
    times otherwise; the first [k] slices are full and the remainder, if
    any, is a last slice of [r] bytes. *)
Theorem chunk_count_and_remainder (self : QrrrFrameFactory.t) (data : bytes)
    (k r : Z) :
  0 < QrrrFrameFactory.chunk_size self ->
  0 <= k -> 0 <= r < QrrrFrameFactory.chunk_size self ->
  len data = k * QrrrFrameFactory.chunk_size self + r ->
  QrrrFrameFactory.num_chunks self data
  = Ok (if r =? 0 then k else k + 1) /\
  (forall i, 0 <= i < k ->
     len (QrrrFrameFactory.chunk_at self data i)
     = QrrrFrameFactory.chunk_size self) /\
  len (QrrrFrameFactory.chunk_at self data k) = r.
Proof.
  intros Hcs Hk Hr Hlen.
  set (cs := QrrrFrameFactory.chunk_size self) in *.
  split; [|split].
  - rewrite num_chunks_ok by exact Hcs. fold cs. f_equal.
    destruct (r =? 0) eqn:E.
    + apply Z.eqb_eq in E. subst r.
      replace (len data + cs - 1) with (k * cs + (cs - 1)) by lia.
      rewrite Z.div_add_l by lia. rewrite Z.div_small by lia. lia.
    + apply Z.eqb_neq in E.
      replace (len data + cs - 1) with ((k + 1) * cs + (r - 1)) by lia.
      rewrite Z.div_add_l by lia. rewrite Z.div_small by lia. lia.
  - intros i Hi. rewrite len_chunk_at by (fold cs; lia). fold cs. nia.
  - rewrite len_chunk_at by (fold cs; lia). fold cs. nia.
Qed.

Lemma chunk_count_and_remainder_witness :
  let self := QrrrFrameFactory.mk (qrcode.new 1 ERROR_CORRECT_H) 7 in
  let data := repeat x2a 17%nat in
  QrrrFrameFactory.num_chunks self data
  = Ok (if 3 =? 0 then 2 else 2 + 1) /\
  (forall i, 0 <= i < 2 ->
     len (QrrrFrameFactory.chunk_at self data i)
     = QrrrFrameFactory.chunk_size self) /\
  len (QrrrFrameFactory.chunk_at self data 2) = 3.
Proof.
  apply (chunk_count_and_remainder
           (QrrrFrameFactory.mk (qrcode.new 1 ERROR_CORRECT_H) 7)
           (repeat x2a 17%nat) 2 3).
  - simpl. lia.
  - lia.
  - simpl. lia.
  - unfold len. simpl. lia.
Defined.

(** ** The encoder between frames *)

Lemma rendered_same_config (s self : QrrrFrameFactory.t) (chunk : bytes) :
  same_config s self -> rendered s chunk = rendered self chunk.
Proof. intros [H1 H2]. unfold rendered. by rewrite H1, H2. Qed.

Lemma range_lookup (n i : Z) :
  0 <= i < n -> range n !! Z.to_nat i = Some i.
Proof.
  intros H. unfold range. rewrite list_lookup_fmap, lookup_seq_lt by lia.
  simpl. f_equal. lia.
Qed.

Section LoopState.

Variable self : QrrrFrameFactory.t.
Variable data : bytes.
Variable n : Z.

Hypothesis cs_pos : 0 < QrrrFrameFactory.chunk_size self.
Hypothesis n_not_1 : n <> 1.

(** The loop, with the factory it ends with: the one it started with when
    it did not run, the one that rendered the last slice otherwise. *)
Lemma for_each_frames_state (k a : nat) (frames : list Image)
    (s : QrrrFrameFactory.t) :
  same_config s self ->
  for_each (QrrrFrameFactory.loop_body data n) (frames, s)
           (Z.of_nat <$> seq a k)
  = Ok (frames ++ (frame_at self data n <$> (Z.of_nat <$> seq a k)),
        match k with
        | O => s
        | S k' =>
            rendered self
              (QrrrFrameFactory.chunk_at self data (Z.of_nat (a + k')))
        end).
Proof.
  revert a frames s. induction k as [|k IH]; intros a frames s Hs.
  - simpl. by rewrite app_nil_r.
  - change (Z.of_nat <$> seq a (S k))
      with (Z.of_nat a :: (Z.of_nat <$> seq (S a) k)).
    rewrite for_each_cons, (loop_body_ok self data n cs_pos n_not_1)
      by (done || lia).
    rewrite (rendered_same_config s self _ Hs).
    rewrite IH by apply same_config_rendered.
    rewrite fmap_cons, <- app_assoc. simpl. f_equal. f_equal.
    destruct k as [|k'].
    + by rewrite Nat.add_0_r.
    + do 3 f_equal. lia.
Qed.

Lemma build_all_frames_exact (s : QrrrFrameFactory.t) :
  same_config s self ->
  QrrrFrameFactory.num_chunks self data = Ok n ->
  QrrrFrameFactory.build_all_frames s data
  = Ok (frame_at self data n <$> range n,
        if n <=? 0 then s
        else rendered self (QrrrFrameFactory.chunk_at self data (n - 1))).
Proof.
  intros Hs Hn. unfold QrrrFrameFactory.build_all_frames.
  assert (Hn' : QrrrFrameFactory.num_chunks s data = Ok n).
  { unfold QrrrFrameFactory.num_chunks in *. by destruct Hs as [_ ->]. }
  rewrite Hn'. simpl. unfold range.
  rewrite (for_each_frames_state (Z.to_nat n) 0 [] s Hs). simpl.
  f_equal. f_equal.
  destruct (n <=? 0) eqn:E.
  - by replace (Z.to_nat n) with 0%nat by lia.
  - destruct (Z.to_nat n) as [|k'] eqn:Ek; [lia|].
    do 2 f_equal. lia.
Qed.

End LoopState.

Lemma encoded_frame_image (self : QrrrFrameFactory.t) (chunk : bytes)
    (progress : Q) :
  encoded (frame_image self chunk progress) = [chunk].
Proof.
  unfold frame_image, QrrrFrameFactory._get_progressbar_image. simpl.
  by destruct (0 <? _).
Qed.

(** X3. When [data] makes more than one chunk, the symbol of frame [i]
    holds the slice of iteration [i] and nothing else, so the payloads of
    the frames, read in order, are [data]. *)
Theorem frames_encode_the_data (self : QrrrFrameFactory.t) (data : bytes)
    (n : Z) :
  0 < QrrrFrameFactory.chunk_size self ->
  QrrrFrameFactory.num_chunks self data = Ok n ->
  1 < n ->
  exists frames s',
    QrrrFrameFactory.build_all_frames self data = Ok (frames, s') /\
    encoded <$> frames
    = (fun i => [QrrrFrameFactory.chunk_at self data i]) <$> range n /\
    concat (concat (encoded <$> frames)) = data.
Proof.
  intros Hcs Hn H1.
  eexists _, _. split.
  { apply (build_all_frames_exact self data n Hcs ltac:(lia) self);
      [apply same_config_refl|exact Hn]. }
  assert (He : encoded <$> (frame_at self data n <$> range n)
               = (fun i => [QrrrFrameFactory.chunk_at self data i])
                   <$> range n).
  { rewrite <- list_fmap_compose. apply list_fmap_ext.
    intros i x _. apply encoded_frame_image. }
  split; [exact He|]. rewrite He.
  rewrite (list_fmap_compose (QrrrFrameFactory.chunk_at self data)
             (fun c => [c])).
  rewrite <- (concat_chunks self data Hcs n) at 2.
  - generalize (QrrrFrameFactory.chunk_at self data <$> range n).
    intros l. induction l as [|c l IH]; [done|].
    rewrite fmap_cons. cbn [concat app]. by rewrite IH.
  - rewrite num_chunks_ok in Hn by exact Hcs. injection Hn as <-.
    by destruct (num_chunks_bounds self data Hcs) as (_ & _ & ?).
Qed.

Lemma frames_encode_the_data_witness :
  let self := QrrrFrameFactory.mk (qrcode.new 1 ERROR_CORRECT_H) 7 in
  let data := repeat x2a 15%nat in
  exists frames s',
    QrrrFrameFactory.build_all_frames self data = Ok (frames, s') /\
    encoded <$> frames
    = (fun i => [QrrrFrameFactory.chunk_at self data i]) <$> range 3 /\
    concat (concat (encoded <$> frames)) = data.
Proof.
  apply (frames_encode_the_data
           (QrrrFrameFactory.mk (qrcode.new 1 ERROR_CORRECT_H) 7)
           (repeat x2a 15%nat) 3).
  - simpl. lia.
  - reflexivity.
  - lia.
Defined.

(** X4. What the encoder held before a run has no effect on it: two
    factories of one configuration give the same frames, or fail alike.
    A run keeps the configuration, and after more than one chunk the
    encoder holds the last slice alone. *)
Theorem encoder_payload_does_not_leak (s1 s2 : QrrrFrameFactory.t)
    (data : bytes) :
  0 < QrrrFrameFactory.chunk_size s1 ->
  same_config s1 s2 ->
  fst <$> QrrrFrameFactory.build_all_frames s1 data
  = fst <$> QrrrFrameFactory.build_all_frames s2 data /\
  (forall frames s',
     QrrrFrameFactory.build_all_frames s1 data = Ok (frames, s') ->
     same_config s' s1 /\
     (forall n,
        QrrrFrameFactory.num_chunks s1 data = Ok n -> 1 < n ->
        data_list (QrrrFrameFactory.qr s')
        = [QrrrFrameFactory.chunk_at s1 data (n - 1)])).
Proof.
  intros Hcs Hs.
  pose proof (num_chunks_ok s1 data Hcs) as Hn.
  set (n := (len data + QrrrFrameFactory.chunk_size s1 - 1)
            / QrrrFrameFactory.chunk_size s1) in *.
  assert (Hs21 : same_config s2 s1).
  { destruct Hs as [H1 H2]. by split. }
  destruct (decide (n = 1)) as [E|E].
  - rewrite E in Hn.
    assert (Hn2 : QrrrFrameFactory.num_chunks s2 data = Ok 1).
    { unfold QrrrFrameFactory.num_chunks in *. by destruct Hs as [_ <-]. }
    rewrite (build_all_frames_single s1 data Hn).
    rewrite (build_all_frames_single s2 data Hn2).
    split; [reflexivity|]. intros frames s' H. discriminate H.
  - rewrite (build_all_frames_exact s1 data n Hcs E s1
               (same_config_refl s1) Hn).
    rewrite (build_all_frames_exact s1 data n Hcs E s2 Hs21 Hn).
    split; [reflexivity|].
    intros frames s' H. injection H as _ <-. split.
    + destruct (n <=? 0); [apply same_config_refl|apply same_config_rendered].
    + intros n' Hn' H1. rewrite Hn in Hn'. injection Hn' as <-.
      destruct (n <=? 0) eqn:E0; [lia|]. reflexivity.
Qed.

Lemma encoder_payload_does_not_leak_witness :
  let s1 := QrrrFrameFactory.mk (qrcode.new 1 ERROR_CORRECT_H) 7 in
  let s2 :=
    QrrrFrameFactory.mk (mkQRCode 1 ERROR_CORRECT_H 10 4 [[x01; x02]]) 7 in
  let data := repeat x2a 15%nat in
  fst <$> QrrrFrameFactory.build_all_frames s1 data
  = fst <$> QrrrFrameFactory.build_all_frames s2 data /\
  (forall frames s',
     QrrrFrameFactory.build_all_frames s1 data = Ok (frames, s') ->
     same_config s' s1 /\
     (forall n,
        QrrrFrameFactory.num_chunks s1 data = Ok n -> 1 < n ->
        data_list (QrrrFrameFactory.qr s')
        = [QrrrFrameFactory.chunk_at s1 data (n - 1)])).
Proof.
  apply (encoder_payload_does_not_leak
           (QrrrFrameFactory.mk (qrcode.new 1 ERROR_CORRECT_H) 7)
           (QrrrFrameFactory.mk
              (mkQRCode 1 ERROR_CORRECT_H 10 4 [[x01; x02]]) 7)
           (repeat x2a 15%nat)).
  - simpl. lia.
  - split; reflexivity.
Defined.

(** ** The frames of one run *)

Lemma frame_image_stacked (self : QrrrFrameFactory.t) (chunk : bytes)
    (progress : Q) :
  frame_image self chunk progress
  = stacked (symbol_of self chunk)
            (QrrrFrameFactory._get_progressbar_image self progress).
Proof. reflexivity. Qed.

Lemma frame_image_size (self : QrrrFrameFactory.t) (chunk : bytes)
    (progress : Q) :
  let qr := QrrrFrameFactory.qr self in
  let side := box_size qr * (4 * _version qr + 2 * border qr + 17) in
  Image_size (frame_image self chunk progress)
  = (side, side + box_size qr * (Z.max 2 (4 * _version qr / 10) + border qr)).
Proof.
  unfold frame_image. simpl. rewrite progressbar_size. reflexivity.
Qed.

Lemma frames_sizes (self : QrrrFrameFactory.t) (data : bytes) :
  0 < QrrrFrameFactory.chunk_size self ->
  let qr := QrrrFrameFactory.qr self in
  let side := box_size qr * (4 * _version qr + 2 * border qr + 17) in
  let bar := box_size qr * (Z.max 2 (4 * _version qr / 10) + border qr) in
  forall frames s',
    QrrrFrameFactory.build_all_frames self data = Ok (frames, s') ->
    Forall (fun frame => Image_size frame = (side, side + bar)) frames.
Proof.
  intros Hcs qr0 side bar frames s' H.
  pose proof (num_chunks_ok self data Hcs) as Hn.
  set (n := (len data + QrrrFrameFactory.chunk_size self - 1)
            / QrrrFrameFactory.chunk_size self) in *.
  destruct (decide (n = 1)) as [E|E].
  - rewrite E in Hn. rewrite (build_all_frames_single self data Hn) in H.
    discriminate H.
  - rewrite (build_all_frames_exact self data n Hcs E self
               (same_config_refl self) Hn) in H.
    injection H as <- _. apply Forall_fmap, Forall_forall. intros i _.
    apply frame_image_size.
Qed.

(** X5. All the frames of one run have one size, fixed by the
    configuration alone: the side of the symbol by the side of the symbol
    plus the height of the bar. *)
Theorem frames_share_one_size (self : QrrrFrameFactory.t) (data : bytes) :
  0 < QrrrFrameFactory.chunk_size self ->
  let qr := QrrrFrameFactory.qr self in
  let side := box_size qr * (4 * _version qr + 2 * border qr + 17) in
  let bar := box_size qr * (Z.max 2 (4 * _version qr / 10) + border qr) in
  match QrrrFrameFactory.build_all_frames self data with
  | Ok (frames, _) =>
      Forall (fun frame => Image_size frame = (side, side + bar)) frames
  | Raise _ => True
  end.
Proof.
  intros Hcs. simpl.
  destruct (QrrrFrameFactory.build_all_frames self data)
    as [[frames s']|e] eqn:E; [|done].
  by apply (frames_sizes self data Hcs frames s').
Qed.

Lemma frames_share_one_size_witness :
  let self := QrrrFrameFactory.mk (qrcode.new 1 ERROR_CORRECT_H) 7 in
  let data := repeat x2a 15%nat in
  let qr := QrrrFrameFactory.qr self in
  let side := box_size qr * (4 * _version qr + 2 * border qr + 17) in
  let bar := box_size qr * (Z.max 2 (4 * _version qr / 10) + border qr) in
  match QrrrFrameFactory.build_all_frames self data with
  | Ok (frames, _) =>
      Forall (fun frame => Image_size frame = (side, side + bar)) frames
  | Raise _ => True
  end.
Proof.
  apply (frames_share_one_size
           (QrrrFrameFactory.mk (qrcode.new 1 ERROR_CORRECT_H) 7)
           (repeat x2a 15%nat)).
  simpl. lia.
Defined.

(** ** The bar and the progress *)

Section Bar.

Variable self : QrrrFrameFactory.t.

Hypothesis config_ok : valid_config (QrrrFrameFactory.qr self).

Local Abbreviation available_width :=
  (QrrrFrameFactory.im_width self - 2 * border (QrrrFrameFactory.qr self)).

Lemma available_width_pos : 0 < available_width.
Proof.
  destruct config_ok as (_ & Hv & _). unfold QrrrFrameFactory.im_width. lia.
Qed.

Lemma available_width_Q : (0 <= inject_Z available_width)%Q.
Proof.
  pose proof available_width_pos as H.
  change 0%Q with (inject_Z 0). rewrite <- Zle_Qle. lia.
Qed.

Lemma bar_width_floor (progress : Q) :
  (0 <= progress)%Q ->
  QrrrFrameFactory.bar_width self progress
  = Qfloor (progress * inject_Z available_width).
Proof.
  intros H. unfold QrrrFrameFactory.bar_width. apply py_int_floor.
  apply Qmult_le_0_compat; [exact H|apply available_width_Q].
Qed.

Lemma bar_width_zero (progress : Q) :
  (progress == 0)%Q -> QrrrFrameFactory.bar_width self progress = 0.
Proof.
  intros H. rewrite bar_width_floor by (rewrite H; apply Qle_refl).
  by rewrite H, Qmult_0_l.
Qed.

Lemma bar_width_one (progress : Q) :
  (progress == 1)%Q ->
  QrrrFrameFactory.bar_width self progress = available_width.
Proof.
  intros H. rewrite bar_width_floor by (rewrite H; discriminate).
  by rewrite H, Qmult_1_l, Qfloor_Z.
Qed.

Lemma bar_width_mono (p q : Q) :
  (0 <= p)%Q -> (p <= q)%Q ->
  QrrrFrameFactory.bar_width self p <= QrrrFrameFactory.bar_width self q.
Proof.
  intros H0 H. rewrite !bar_width_floor by (done || by eapply Qle_trans).
  apply Qfloor_resp_le, Qmult_le_compat_r; [exact H|apply available_width_Q].
Qed.

Lemma progressbar_blank (progress : Q) :
  QrrrFrameFactory.bar_width self progress <= 0 ->
  QrrrFrameFactory._get_progressbar_image self progress = bar_background self.
Proof.
  intros H. unfold QrrrFrameFactory._get_progressbar_image.
  destruct (0 <? _) eqn:E; [lia|reflexivity].
Qed.

Lemma progressbar_drawn (progress : Q) :
  0 < QrrrFrameFactory.bar_width self progress ->
  let qr := QrrrFrameFactory.qr self in
  QrrrFrameFactory._get_progressbar_image self progress
  = rectangle (bar_background self)
      (box_size qr * border qr, 0,
       box_size qr * QrrrFrameFactory.bar_width self progress
       + box_size qr * border qr,
       box_size qr * QrrrFrameFactory.bar_height self + 0).
Proof.
  intros H. unfold QrrrFrameFactory._get_progressbar_image.
  destruct (0 <? _) eqn:E; [reflexivity|lia].
Qed.

End Bar.

(** X6. The bar never shrinks when the progress grows from 0 on, and at
    progress 1 it is as wide as the bar image without its left and right
    padding, [4 * version + 17] modules. *)
Theorem bar_grows_with_progress (self : QrrrFrameFactory.t) (p q : Q) :
  valid_config (QrrrFrameFactory.qr self) ->
  (0 <= p)%Q -> (p <= q)%Q ->
  QrrrFrameFactory.bar_width self p <= QrrrFrameFactory.bar_width self q /\
  QrrrFrameFactory.bar_width self 1
  = 4 * _version (QrrrFrameFactory.qr self) + 17.
Proof.
  intros Hv H0 H. split; [by apply bar_width_mono|].
  rewrite bar_width_one by done. unfold QrrrFrameFactory.im_width. lia.
Qed.

Lemma bar_grows_with_progress_witness :
  let self := QrrrFrameFactory.mk (qrcode.new 1 ERROR_CORRECT_H) 7 in
  QrrrFrameFactory.bar_width self (1 # 3)
  <= QrrrFrameFactory.bar_width self (2 # 3) /\
  QrrrFrameFactory.bar_width self 1
  = 4 * _version (QrrrFrameFactory.qr self) + 17.
Proof.
  apply (bar_grows_with_progress
           (QrrrFrameFactory.mk (qrcode.new 1 ERROR_CORRECT_H) 7)
           (1 # 3)%Q (2 # 3)%Q).
  - apply valid_config_new; [apply recognized_cases; tauto | lia].
  - unfold Qle. simpl. lia.
  - unfold Qle. simpl. lia.
Defined.

Lemma bar_corners (self : QrrrFrameFactory.t) (progress : Q) :
  valid_config (QrrrFrameFactory.qr self) ->
  (0 <= progress)%Q -> (progress <= 1)%Q ->
  forall canvas x0 y0 x1 y1,
    QrrrFrameFactory._get_progressbar_image self progress
    = rectangle canvas (x0, y0, x1, y1) ->
    let padding :=
      box_size (QrrrFrameFactory.qr self) * border (QrrrFrameFactory.qr self)
    in
    canvas = bar_background self /\
    x0 = padding /\ y0 = 0 /\
    x0 < x1 <= (Image_size canvas).1 - padding /\
    y0 < y1 /\ y1 = (Image_size canvas).2 - padding.
Proof.
  intros Hv H0 H1 canvas x0 y0 x1 y1 Him.
  pose proof (bar_width_mono self Hv progress 1 H0 H1) as Hle.
  rewrite (bar_width_one self Hv 1) in Hle by reflexivity.
  destruct (Z.le_gt_cases (QrrrFrameFactory.bar_width self progress) 0)
    as [Hz|Hpos].
  { rewrite (progressbar_blank self progress Hz) in Him. discriminate Him. }
  rewrite (progressbar_drawn self progress Hpos) in Him.
  injection Him as <- <- <- <- <-. simpl.
  destruct Hv as (_ & Hver & Hbox & Hbor).
  unfold QrrrFrameFactory.bar_height, QrrrFrameFactory.im_height,
    QrrrFrameFactory.im_width in *.
  repeat split; nia.
Qed.

(** X7. For a valid configuration and a progress between 0 and 1, the bar
    image is the blank canvas, or the blank canvas with one rectangle whose
    corners are inside it: the rectangle starts at the left padding and at
    the top, is not empty, ends no further right than where the right
    padding begins and ends where the bottom padding begins. *)
Theorem bar_keeps_the_padding (self : QrrrFrameFactory.t) (progress : Q) :
  valid_config (QrrrFrameFactory.qr self) ->
  (0 <= progress)%Q -> (progress <= 1)%Q ->
  let padding :=
    box_size (QrrrFrameFactory.qr self) * border (QrrrFrameFactory.qr self)
  in
  match QrrrFrameFactory._get_progressbar_image self progress with
  | rectangle canvas (x0, y0, x1, y1) =>
      canvas = bar_background self /\
      x0 = padding /\ y0 = 0 /\
      x0 < x1 <= (Image_size canvas).1 - padding /\
      y0 < y1 /\ y1 = (Image_size canvas).2 - padding
  | im => im = bar_background self
  end.
Proof.
  intros Hv H0 H1. simpl.
  pose proof (bar_corners self progress Hv H0 H1) as Hc.
  destruct (Z.le_gt_cases (QrrrFrameFactory.bar_width self progress) 0)
    as [Hz|Hpos].
  - by rewrite (progressbar_blank self progress Hz).
  - rewrite (progressbar_drawn self progress Hpos) in *.
    by apply Hc.
Qed.

Lemma bar_keeps_the_padding_witness :
  let self := QrrrFrameFactory.mk (qrcode.new 1 ERROR_CORRECT_H) 7 in
  let padding :=
    box_size (QrrrFrameFactory.qr self) * border (QrrrFrameFactory.qr self)
  in
  match QrrrFrameFactory._get_progressbar_image self (1 # 2) with
  | rectangle canvas (x0, y0, x1, y1) =>
      canvas = bar_background self /\
      x0 = padding /\ y0 = 0 /\
      x0 < x1 <= (Image_size canvas).1 - padding /\
      y0 < y1 /\ y1 = (Image_size canvas).2 - padding
  | im => im = bar_background self
  end.
Proof.
  apply (bar_keeps_the_padding
           (QrrrFrameFactory.mk (qrcode.new 1 ERROR_CORRECT_H) 7) (1 # 2)%Q).
  - apply valid_config_new; [apply recognized_cases; tauto | lia].
  - unfold Qle. simpl. lia.
  - unfold Qle. simpl. lia.
Defined.

(** X8. When [data] makes more than one chunk, the first frame of the run
    shows the symbol of the first slice over a blank bar, and the last frame
    the symbol of the last slice over a bar filled from the left padding to
    the right padding. *)
Theorem first_bar_blank_last_bar_full (self : QrrrFrameFactory.t)
    (data : bytes) (n : Z) :
  valid_config (QrrrFrameFactory.qr self) ->
  0 < QrrrFrameFactory.chunk_size self ->
  QrrrFrameFactory.num_chunks self data = Ok n ->
  1 < n ->
  let qr := QrrrFrameFactory.qr self in
  exists frames s',
    QrrrFrameFactory.build_all_frames self data = Ok (frames, s') /\
    frames !! 0%nat
    = Some (stacked (symbol_of self (QrrrFrameFactory.chunk_at self data 0))
                    (bar_background self)) /\
    frames !! Z.to_nat (n - 1)
    = Some (stacked
              (symbol_of self (QrrrFrameFactory.chunk_at self data (n - 1)))
              (rectangle (bar_background self)
                 (box_size qr * border qr, 0,
                  box_size qr * (QrrrFrameFactory.im_width self - border qr),
                  box_size qr * QrrrFrameFactory.bar_height self))).
Proof.
  intros Hv Hcs Hn H1. simpl. eexists _, _. split.
  { apply (build_all_frames_exact self data n Hcs ltac:(lia) self);
      [apply same_config_refl|exact Hn]. }
  split.
  - rewrite list_lookup_fmap.
    change (range n !! 0%nat) with (range n !! Z.to_nat 0).
    rewrite (range_lookup n 0) by lia. simpl.
    unfold frame_at. rewrite frame_image_stacked.
    rewrite (progressbar_blank self).
    + reflexivity.
    + rewrite (bar_width_zero self Hv); [lia|by apply progress_of_first].
  - rewrite list_lookup_fmap, (range_lookup n (n - 1)) by lia. simpl.
    unfold frame_at. rewrite frame_image_stacked.
    pose proof (bar_width_one self Hv (progress_of n (n - 1))
                  (progress_of_last n H1)) as Hw.
    pose proof (available_width_pos self Hv) as Hpos.
    rewrite (progressbar_drawn self) by lia. rewrite Hw.
    do 3 f_equal. f_equal; [f_equal; lia|lia].
Qed.

Lemma first_bar_blank_last_bar_full_witness :
  let self := QrrrFrameFactory.mk (qrcode.new 1 ERROR_CORRECT_H) 7 in
  let data := repeat x2a 15%nat in
  let qr := QrrrFrameFactory.qr self in
  exists frames s',
    QrrrFrameFactory.build_all_frames self data = Ok (frames, s') /\
    frames !! 0%nat
    = Some (stacked (symbol_of self (QrrrFrameFactory.chunk_at self data 0))
                    (bar_background self)) /\
    frames !! Z.to_nat (3 - 1)
    = Some (stacked
              (symbol_of self (QrrrFrameFactory.chunk_at self data (3 - 1)))
              (rectangle (bar_background self)
                 (box_size qr * border qr, 0,
                  box_size qr * (QrrrFrameFactory.im_width self - border qr),
                  box_size qr * QrrrFrameFactory.bar_height self))).
Proof.
  apply (first_bar_blank_last_bar_full
           (QrrrFrameFactory.mk (qrcode.new 1 ERROR_CORRECT_H) 7)
           (repeat x2a 15%nat) 3).
  - apply valid_config_new; [apply recognized_cases; tauto | lia].
  - simpl. lia.
  - reflexivity.
  - lia.
Defined.

(** ** The constructor of [Qrrr] *)



(** X9. For a version from 1 to 40, a recognized level and an fps from 1 to
    20, the constructor succeeds: the delay of a frame is
    [floor(1000 / fps)] milliseconds, between 50 and 1000, the encoder has
    the version and the level asked for, and the chunk size is the entry
    of the table. *)
Theorem constructor_accepts_the_choices (version ecc fps : Z) :
  recognized ecc -> 1 <= version <= 40 -> 1 <= fps <= 20 ->
  exists self,
    Qrrr.__init__ version ecc fps = Ok self /\
    Qrrr.framelength self * fps <= 1000 < (Qrrr.framelength self + 1) * fps /\
    50 <= Qrrr.framelength self <= 1000 /\
    QrrrFrameFactory.qr (Qrrr.factory self) = qrcode.new version ecc /\
    QrrrFrameFactory.capacity ecc version
    = Ok (QrrrFrameFactory.chunk_size (Qrrr.factory self)) /\
    0 < QrrrFrameFactory.chunk_size (Qrrr.factory self).
Proof.
  intros He Hv Hf.
  destruct (init_valid (qrcode.new version ecc)
              (valid_config_new version ecc He Hv))
    as (fac & Hfac & Hqr & Hcs).
  exists (Qrrr.mk (1000 / fps) fac).
  pose proof (Z.div_mod 1000 fps ltac:(lia)) as Hdm.
  pose proof (Z.mod_pos_bound 1000 fps ltac:(lia)) as Hm.
  split.
  { unfold Qrrr.__init__, py_floordiv.
    destruct (fps =? 0) eqn:E; [lia|]. simpl.
    rewrite (qrcode_init_ok version ecc Hv). simpl. by rewrite Hfac. }
  simpl. split; [nia|]. split; [nia|]. split; [exact Hqr|].
  split; [|exact Hcs].
  by apply init_chunk_size in Hfac as (_ & ? & _).
Qed.

Lemma constructor_accepts_the_choices_witness :
  exists self,
    Qrrr.__init__ 3 ERROR_CORRECT_L 7 = Ok self /\
    Qrrr.framelength self * 7 <= 1000 < (Qrrr.framelength self + 1) * 7 /\
    50 <= Qrrr.framelength self <= 1000 /\
    QrrrFrameFactory.qr (Qrrr.factory self) = qrcode.new 3 ERROR_CORRECT_L /\
    QrrrFrameFactory.capacity ERROR_CORRECT_L 3
    = Ok (QrrrFrameFactory.chunk_size (Qrrr.factory self)) /\
    0 < QrrrFrameFactory.chunk_size (Qrrr.factory self).
Proof.
  apply (constructor_accepts_the_choices 3 ERROR_CORRECT_L 7).
  - apply recognized_cases. tauto.
  - lia.
  - lia.
Defined.




(** ** Building the animation *)

Lemma first_and_rest {A} (l : list A) :
  0 < len l ->
  exists first,
    py_getitem l 0 = Ok first /\ first :: py_slice l 1 (len l) = l.
Proof.
  destruct l as [|x l]; [unfold len; simpl; lia|]. intros _.
  exists x. split.
  - rewrite py_getitem_lookup; [reflexivity|unfold len; simpl; lia].
  - rewrite py_slice_nonneg by (unfold len; simpl; lia).
    simpl. f_equal. apply take_ge. unfold len. simpl. lia.
Qed.

Section Build.

Variable split_tail : string -> string.
Variable splitext_root : string -> string.
Variable abspath : string -> string.

Local Abbreviation build := (Qrrr.build split_tail splitext_root abspath).
Local Abbreviation outfile := (outfile_of split_tail splitext_root).

Variable self : Qrrr.t.

Hypothesis cs_pos : 0 < QrrrFrameFactory.chunk_size (Qrrr.factory self).

(** The run of [build] on a content of more than one chunk, from any state
    of the encoder. *)
Lemma build_exact (t : Qrrr.t) (w : World) (source : string)
    (content : bytes) (n : Z) :
  Qrrr.framelength t = Qrrr.framelength self ->
  same_config (Qrrr.factory t) (Qrrr.factory self) ->
  files w !! source = Some content ->
  QrrrFrameFactory.num_chunks (Qrrr.factory self) content = Ok n ->
  1 < n ->
  build t w source
  = (mkWorld (files w)
             (<[outfile source := animation self content n]> (written w)),
     Ok (abspath (outfile source),
         Qrrr.mk (Qrrr.framelength self)
           (rendered (Qrrr.factory self)
              (QrrrFrameFactory.chunk_at (Qrrr.factory self) content
                 (n - 1))))).
Proof.
  intros Hfl Hs Hsrc Hn H1.
  unfold Qrrr.build, Qrrr.build_gif. unfold bytes in *. rewrite Hsrc.
  rewrite (build_all_frames_exact (Qrrr.factory self) content n cs_pos
             ltac:(lia) (Qrrr.factory t) Hs Hn).
  simpl.
  destruct (first_and_rest
              (frame_at (Qrrr.factory self) content n <$> range n))
    as (first & Hfirst & Hall).
  { unfold len. rewrite length_fmap. fold (len (range n)).
    rewrite len_range; lia. }
  rewrite Hfirst. simpl. rewrite Hall, Hfl.
  destruct (n <=? 0) eqn:E; [lia|]. reflexivity.
Qed.

Lemma build_single (w : World) (source : string) (content : bytes) :
  files w !! source = Some content ->
  1 <= len content <= QrrrFrameFactory.chunk_size (Qrrr.factory self) ->
  build self w source = (w, Raise ZeroDivisionError).
Proof.
  intros Hsrc Hlen.
  unfold Qrrr.build, Qrrr.build_gif. unfold bytes in *. rewrite Hsrc.
  rewrite (build_all_frames_single (Qrrr.factory self) content).
  - reflexivity.
  - apply num_chunks_single; [exact cs_pos|exact Hlen].
Qed.

Lemma build_empty (w : World) (source : string) (content : bytes) :
  files w !! source = Some content ->
  len content = 0 ->
  build self w source = (w, Raise IndexError).
Proof.
  intros Hsrc Hlen.
  assert (content = []) as ->.
  { destruct content; [done|]. unfold len in Hlen. simpl in Hlen. lia. }
  unfold Qrrr.build, Qrrr.build_gif. unfold bytes in *. rewrite Hsrc.
  unfold QrrrFrameFactory.build_all_frames.
  rewrite (num_chunks_empty _ cs_pos). reflexivity.
Qed.

Lemma build_missing (w : World) (source : string) :
  files w !! source = None ->
  build self w source = (w, Raise FileNotFoundError).
Proof.
  intros Hsrc. unfold Qrrr.build. unfold bytes in *. by rewrite Hsrc.
Qed.

Lemma num_chunks_several (content : bytes) :
  QrrrFrameFactory.chunk_size (Qrrr.factory self) < len content ->
  exists n,
    QrrrFrameFactory.num_chunks (Qrrr.factory self) content = Ok n /\ 1 < n.
Proof.
  intros H. eexists. split; [by apply num_chunks_ok|].
  destruct (num_chunks_bounds (Qrrr.factory self) content cs_pos)
    as (_ & _ & Hhi).
  nia.
Qed.

End Build.

(** X11. For a source file of more than [chunk_size] bytes, [build] saves
    an animation under the base name of the source without its extension,
    followed by [.qrrr.gif]: it has one frame per chunk, in order, each shown
    for [framelength] milliseconds, and loops forever.  [build] returns the
    absolute path of that name and keeps the delay and the configuration. *)
Theorem build_saves_the_animation
    (split_tail splitext_root abspath : string -> string)
    (self : Qrrr.t) (w : World) (source : string) (content : bytes) :
  0 < QrrrFrameFactory.chunk_size (Qrrr.factory self) ->
  files w !! source = Some content ->
  QrrrFrameFactory.chunk_size (Qrrr.factory self) < len content ->
  exists n gif self' w',
    QrrrFrameFactory.num_chunks (Qrrr.factory self) content = Ok n /\
    Qrrr.build split_tail splitext_root abspath self w source
    = (w', Ok (abspath (outfile_of split_tail splitext_root source), self')) /\
    written w' !! outfile_of split_tail splitext_root source = Some gif /\
    gif_frames gif = frame_at (Qrrr.factory self) content n <$> range n /\
    len (gif_frames gif) = n /\
    gif_duration gif = Qrrr.framelength self /\
    gif_loop gif = 0 /\
    Qrrr.framelength self' = Qrrr.framelength self /\
    same_config (Qrrr.factory self') (Qrrr.factory self).
Proof.
  intros Hcs Hsrc Hlen.
  destruct (num_chunks_several self Hcs content Hlen) as (n & Hn & H1).
  eexists n, _, _, _. split; [exact Hn|]. split.
  { apply (build_exact split_tail splitext_root abspath self Hcs self);
      [reflexivity|apply same_config_refl|exact Hsrc|exact Hn|exact H1]. }
  simpl. split; [apply lookup_insert_eq|].
  simpl. repeat split.
  unfold len. rewrite length_fmap. fold (len (range n)).
  apply len_range. lia.
Qed.

Lemma build_saves_the_animation_witness :
  let self :=
    Qrrr.mk 200 (QrrrFrameFactory.mk (qrcode.new 1 ERROR_CORRECT_H) 7) in
  let content := repeat x2a 15%nat in
  let w := mkWorld {[ "a/b.bin"%string := content ]} ∅ in
  exists n gif self' w',
    QrrrFrameFactory.num_chunks (Qrrr.factory self) content = Ok n /\
    Qrrr.build id id id self w "a/b.bin"%string
    = (w', Ok (id (outfile_of id id "a/b.bin"%string), self')) /\
    written w' !! outfile_of id id "a/b.bin"%string = Some gif /\
    gif_frames gif = frame_at (Qrrr.factory self) content n <$> range n /\
    len (gif_frames gif) = n /\
    gif_duration gif = Qrrr.framelength self /\
    gif_loop gif = 0 /\
    Qrrr.framelength self' = Qrrr.framelength self /\
    same_config (Qrrr.factory self') (Qrrr.factory self).
Proof.
  apply (build_saves_the_animation id id id
           (Qrrr.mk 200 (QrrrFrameFactory.mk (qrcode.new 1 ERROR_CORRECT_H) 7))
           (mkWorld {[ "a/b.bin"%string := repeat x2a 15%nat ]} ∅)
           "a/b.bin"%string (repeat x2a 15%nat)).
  - simpl. lia.
  - reflexivity.
  - unfold len. simpl. lia.
Defined.

(** The four ways [build] can go. *)
Lemma build_cases (split_tail splitext_root abspath : string -> string)
    (self : Qrrr.t) (w : World) (source : string) :
  0 < QrrrFrameFactory.chunk_size (Qrrr.factory self) ->
  match files w !! source with
  | None =>
      Qrrr.build split_tail splitext_root abspath self w source
      = (w, Raise FileNotFoundError)
  | Some content =>
      (len content = 0 /\
       Qrrr.build split_tail splitext_root abspath self w source
       = (w, Raise IndexError)) \/
      (1 <= len content <= QrrrFrameFactory.chunk_size (Qrrr.factory self) /\
       Qrrr.build split_tail splitext_root abspath self w source
       = (w, Raise ZeroDivisionError)) \/
      (QrrrFrameFactory.chunk_size (Qrrr.factory self) < len content /\
       exists n,
         QrrrFrameFactory.num_chunks (Qrrr.factory self) content = Ok n /\
         1 < n /\
         Qrrr.build split_tail splitext_root abspath self w source
         = (mkWorld (files w)
              (<[outfile_of split_tail splitext_root source
                 := animation self content n]> (written w)),
            Ok (abspath (outfile_of split_tail splitext_root source),
                Qrrr.mk (Qrrr.framelength self)
                  (rendered (Qrrr.factory self)
                     (QrrrFrameFactory.chunk_at (Qrrr.factory self) content
                        (n - 1))))))
  end.
Proof.
  intros Hcs.
  destruct (files w !! source) as [content|] eqn:Hsrc.
  - pose proof (len_nonneg content) as Hl.
    destruct (Z.eq_dec (len content) 0) as [E0|E0];
      [|destruct (Z.le_gt_cases (len content)
                    (QrrrFrameFactory.chunk_size (Qrrr.factory self)))
          as [E1|E1]].
    + left. split; [exact E0|].
      by apply (build_empty _ _ _ self Hcs w source content).
    + right. left. split; [lia|].
      apply (build_single _ _ _ self Hcs w source content Hsrc). lia.
    + right. right. split; [exact E1|].
      destruct (num_chunks_several self Hcs content E1) as (n & Hn & H1).
      exists n. split; [exact Hn|]. split; [exact H1|].
      by apply (build_exact split_tail splitext_root abspath self Hcs self).
  - by apply build_missing.
Qed.

(** X12. A source file that is read and has at most [chunk_size] bytes
    cannot be built: [build] raises [IndexError] when the file is empty and
    [ZeroDivisionError] when it has 1 to [chunk_size] bytes, in both cases
    before anything is saved.  So whenever [build] succeeds, the source had
    more than [chunk_size] bytes. *)
Theorem build_needs_several_chunks
    (split_tail splitext_root abspath : string -> string)
    (self : Qrrr.t) (w : World) (source : string) (content : bytes) :
  0 < QrrrFrameFactory.chunk_size (Qrrr.factory self) ->
  files w !! source = Some content ->
  (len content <= QrrrFrameFactory.chunk_size (Qrrr.factory self) ->
   Qrrr.build split_tail splitext_root abspath self w source
   = (w, Raise (if len content =? 0 then IndexError
                else ZeroDivisionError))) /\
  (forall w' r,
     Qrrr.build split_tail splitext_root abspath self w source = (w', Ok r) ->
     QrrrFrameFactory.chunk_size (Qrrr.factory self) < len content).
Proof.
  intros Hcs Hsrc.
  pose proof (build_cases split_tail splitext_root abspath self w source Hcs)
    as Hcases.
  unfold bytes in *. rewrite Hsrc in Hcases.
  destruct Hcases as [[E0 ->]|[[E1 ->]|[E2 (n & Hn & H1 & ->)]]].
  - split; [|intros w' r [=]]. intros _. by rewrite E0.
  - split; [|intros w' r [=]]. intros _.
    destruct (len content =? 0) eqn:E; [lia|reflexivity].
  - split; [lia|]. by intros w' r _.
Qed.

Lemma build_needs_several_chunks_witness :
  let self :=
    Qrrr.mk 200 (QrrrFrameFactory.mk (qrcode.new 1 ERROR_CORRECT_H) 7) in
  let w := mkWorld {[ "small.bin"%string := [x2a; x2a] ]} ∅ in
  (len [x2a; x2a] <= QrrrFrameFactory.chunk_size (Qrrr.factory self) ->
   Qrrr.build id id id self w "small.bin"%string
   = (w, Raise (if len [x2a; x2a] =? 0 then IndexError
                else ZeroDivisionError))) /\
  (forall w' r,
     Qrrr.build id id id self w "small.bin"%string = (w', Ok r) ->
     QrrrFrameFactory.chunk_size (Qrrr.factory self) < len [x2a; x2a]).
Proof.
  apply (build_needs_several_chunks id id id
           (Qrrr.mk 200 (QrrrFrameFactory.mk (qrcode.new 1 ERROR_CORRECT_H) 7))
           (mkWorld {[ "small.bin"%string := [x2a; x2a] ]} ∅)
           "small.bin"%string [x2a; x2a]).
  - simpl. lia.
  - reflexivity.
Defined.

Lemma build_again
    (split_tail splitext_root abspath : string -> string)
    (self : Qrrr.t) (w : World) (source : string) :
  0 < QrrrFrameFactory.chunk_size (Qrrr.factory self) ->
  forall w1 path self1,
    Qrrr.build split_tail splitext_root abspath self w source
    = (w1, Ok (path, self1)) ->
    Qrrr.build split_tail splitext_root abspath self1 w1 source
    = (w1, Ok (path, self1)).
Proof.
  intros Hcs w1 path self1 H.
  pose proof (build_cases split_tail splitext_root abspath self w source Hcs)
    as Hcases.
  destruct (files w !! source) as [content|] eqn:Hsrc;
    [|rewrite Hcases in H; discriminate H].
  destruct Hcases as [[_ E]|[[_ E]|[_ (n & Hn & H1 & E)]]];
    rewrite E in H; [discriminate H..|].
  injection H as <- <- <-.
  match goal with
  | |- Qrrr.build _ _ _ ?t ?w1 _ = _ =>
      rewrite (build_exact split_tail splitext_root abspath self Hcs t w1
                 source content n eq_refl (same_config_rendered _ _)
                 Hsrc Hn H1)
  end.
  simpl. by rewrite insert_insert_eq.
Qed.

(** X13. Building the same source again, with the [Qrrr] and the file
    system the first run left, gives the same result and changes nothing:
    the animation saved is the same, and what the encoder held from the
    first run is not seen in the second. *)
Theorem build_again_changes_nothing
    (split_tail splitext_root abspath : string -> string)
    (self : Qrrr.t) (w : World) (source : string) :
  0 < QrrrFrameFactory.chunk_size (Qrrr.factory self) ->
  match Qrrr.build split_tail splitext_root abspath self w source with
  | (w1, Ok (path, self1)) =>
      Qrrr.build split_tail splitext_root abspath self1 w1 source
      = (w1, Ok (path, self1))
  | (_, Raise _) => True
  end.
Proof.
  intros Hcs.
  destruct (Qrrr.build split_tail splitext_root abspath self w source)
    as [w1 [[path self1]|e]] eqn:E; [|done].
  by apply (build_again split_tail splitext_root abspath self w source Hcs).
Qed.

Lemma build_again_changes_nothing_witness :
  let self :=
    Qrrr.mk 200 (QrrrFrameFactory.mk (qrcode.new 1 ERROR_CORRECT_H) 7) in
  let w := mkWorld {[ "a.bin"%string := repeat x2a 15%nat ]} ∅ in
  match Qrrr.build id id id self w "a.bin"%string with
  | (w1, Ok (path, self1)) =>
      Qrrr.build id id id self1 w1 "a.bin"%string = (w1, Ok (path, self1))
  | (_, Raise _) => True
  end.
Proof.
  apply (build_again_changes_nothing id id id
           (Qrrr.mk 200 (QrrrFrameFactory.mk (qrcode.new 1 ERROR_CORRECT_H) 7))
           (mkWorld {[ "a.bin"%string := repeat x2a 15%nat ]} ∅)
           "a.bin"%string).
  simpl. lia.
Defined.


(** ** The command line *)

Lemma elem_of_range_from (a b v : Z) : v ∈ range_from a b <-> a <= v < b.
Proof.
  unfold range_from. rewrite list_elem_of_fmap. split.
  - intros (k & -> & Hk). apply list_elem_of_In, in_seq in Hk. lia.
  - intros H. exists (Z.to_nat (v - a)). split; [lia|].
    apply list_elem_of_In, in_seq. lia.
Qed.

Lemma elem_of_fps_choices (fps : Z) : fps ∈ fps_choices <-> 1 <= fps <= 20.
Proof. unfold fps_choices, MAX_FPS. rewrite elem_of_range_from. lia. Qed.

Lemma elem_of_version_choices (choices : list Z) (version : Z) :
  version_choices = Ok choices ->
  version ∈ choices <-> 1 <= version <= 40.
Proof.
  intros H. rewrite version_choices_ok in H. injection H as <-.
  apply elem_of_versions.
Qed.

(** Every mode of the command line is a key of [ECC_MAP], for a level that
    has a row in the table. *)
Lemma ECC_MAP_mode (mode : string) :
  mode ∈ ECC_MODES ->
  exists level, py_dict_getitem ECC_MAP mode = Some level /\ recognized level.
Proof.
  unfold ECC_MODES. simpl. rewrite !elem_of_cons, elem_of_nil.
  intros [-> | [-> | [-> | [-> | []]]]]; eexists;
    (split; [reflexivity|]); apply recognized_cases; tauto.
Qed.

Lemma qrrr_init_ok (version ecc fps : Z) :
  recognized ecc -> 1 <= version <= 40 -> fps <> 0 ->
  exists fac,
    Qrrr.__init__ version ecc fps = Ok (Qrrr.mk (1000 / fps) fac) /\
    QrrrFrameFactory.__init__ (qrcode.new version ecc) = Ok fac /\
    0 < QrrrFrameFactory.chunk_size fac.
Proof.
  intros He Hv Hf.
  destruct (init_valid (qrcode.new version ecc)
              (valid_config_new version ecc He Hv))
    as (fac & Hfac & _ & Hcs).
  exists fac. split; [|by split].
  unfold Qrrr.__init__, py_floordiv.
  destruct (fps =? 0) eqn:E; [lia|]. simpl.
  rewrite (qrcode_init_ok version ecc Hv). simpl. by rewrite Hfac.
Qed.

(** X15. Every combination of [--ecc], [--version] and [--fps] among the
    choices of the command line has a level in [ECC_MAP] and makes a
    [Qrrr]: behind the parser the constructor raises neither the
    [KeyError] of the map, nor the [IndexError] of the table, nor the
    [ZeroDivisionError] of the delay. *)
Theorem choices_make_a_qrrr (ecc : string) (version fps : Z)
    (choices : list Z) :
  ecc ∈ ECC_MODES ->
  version_choices = Ok choices -> version ∈ choices ->
  fps ∈ fps_choices ->
  exists level qrrr,
    py_dict_getitem ECC_MAP ecc = Some level /\
    Qrrr.__init__ version level fps = Ok qrrr /\
    Qrrr.framelength qrrr = 1000 / fps /\
    QrrrFrameFactory.capacity level version
    = Ok (QrrrFrameFactory.chunk_size (Qrrr.factory qrrr)).
Proof.
  intros He Hc Hv Hf.
  destruct (ECC_MAP_mode ecc He) as (level & Hlevel & Hrec).
  apply (elem_of_version_choices choices version Hc) in Hv.
  apply elem_of_fps_choices in Hf.
  destruct (qrrr_init_ok version level fps Hrec Hv ltac:(lia))
    as (fac & Hinit & Hfac & _).
  exists level, (Qrrr.mk (1000 / fps) fac).
  split; [exact Hlevel|]. split; [exact Hinit|]. split; [reflexivity|].
  by apply init_chunk_size in Hfac as (_ & ? & _).
Qed.

Lemma choices_make_a_qrrr_witness :
  exists level qrrr,
    py_dict_getitem ECC_MAP "Q"%string = Some level /\
    Qrrr.__init__ 40 level 20 = Ok qrrr /\
    Qrrr.framelength qrrr = 1000 / 20 /\
    QrrrFrameFactory.capacity level 40
    = Ok (QrrrFrameFactory.chunk_size (Qrrr.factory qrrr)).
Proof.
  apply (choices_make_a_qrrr "Q"%string 40 20 versions).
  - unfold ECC_MODES. simpl. rewrite !elem_of_cons. tauto.
  - reflexivity.
  - apply elem_of_versions. lia.
  - apply elem_of_fps_choices. lia.
Defined.

(** X16. With arguments among the choices of the command line, [main]
    ends in one of four ways, by the source file alone: a missing file
    raises [FileNotFoundError], an empty one [IndexError], one that fits a
    single symbol [ZeroDivisionError], all three with nothing written; a
    larger one is saved as an animation of one frame per chunk, each shown
    [floor(1000 / fps)] milliseconds, looping forever, and its absolute path
    is printed. *)
Theorem main_outcomes (split_tail splitext_root abspath : string -> string)
    (args : Namespace.t) (w : World) (choices : list Z) :
  Namespace.ecc args ∈ ECC_MODES ->
  version_choices = Ok choices -> Namespace.version args ∈ choices ->
  Namespace.fps args ∈ fps_choices ->
  exists level capacity,
    py_dict_getitem ECC_MAP (Namespace.ecc args) = Some level /\
    QrrrFrameFactory.capacity level (Namespace.version args) = Ok capacity /\
    match files w !! Namespace.source args with
    | None =>
        main split_tail splitext_root abspath args w
        = (w, Failed (Uncaught FileNotFoundError))
    | Some content =>
        (len content = 0 /\
         main split_tail splitext_root abspath args w
         = (w, Failed (Uncaught IndexError))) \/
        (1 <= len content <= capacity /\
         main split_tail splitext_root abspath args w
         = (w, Failed (Uncaught ZeroDivisionError))) \/
        (capacity < len content /\
         exists gif,
           main split_tail splitext_root abspath args w
           = (mkWorld (files w)
                (<[outfile_of split_tail splitext_root (Namespace.source args)
                   := gif]> (written w)),
              Printed ("Generated QRRR code:"
                       ++ String (Ascii.ascii_of_nat 9)
                            (abspath
                               (outfile_of split_tail splitext_root
                                  (Namespace.source args))))%string) /\
           len (gif_frames gif)
           = Qceiling (inject_Z (len content) / inject_Z capacity) /\
           gif_duration gif = 1000 / Namespace.fps args /\
           gif_loop gif = 0)
    end.
Proof.
  intros He Hc Hv Hf.
  destruct (ECC_MAP_mode _ He) as (level & Hlevel & Hrec).
  apply (elem_of_version_choices choices _ Hc) in Hv.
  apply elem_of_fps_choices in Hf.
  destruct (qrrr_init_ok (Namespace.version args) level (Namespace.fps args)
              Hrec Hv ltac:(lia)) as (fac & Hinit & Hfac & Hcs).
  apply init_chunk_size in Hfac as (_ & Hcap & _). simpl in Hcap.
  exists level, (QrrrFrameFactory.chunk_size fac).
  split; [exact Hlevel|]. split; [exact Hcap|].
  set (qrrr := Qrrr.mk (1000 / Namespace.fps args) fac) in *.
  pose proof (build_cases split_tail splitext_root abspath qrrr w
                (Namespace.source args) Hcs) as Hcases.
  unfold main. rewrite Hlevel, Hinit.
  destruct (files w !! Namespace.source args) as [content|] eqn:Hsrc;
    [|reflexivity].
  destruct Hcases as [[E0 ->]|[[E1 ->]|[E2 (n & Hn & H1 & ->)]]].
  - left. by split.
  - right. left. by split.
  - right. right. split; [exact E2|].
    exists (animation qrrr content n). split; [reflexivity|].
    simpl. split; [|by split].
    unfold len at 1. rewrite length_fmap. fold (len (range n)).
    rewrite len_range by lia.
    rewrite num_chunks_ok in Hn by exact Hcs. injection Hn as <-.
    by apply num_chunks_ceiling.
Qed.

Lemma main_outcomes_witness :
  let args := Namespace.mk "H" 5 1 "a/b.bin" in
  let w := mkWorld {[ "a/b.bin"%string := repeat x2a 15%nat ]} ∅ in
  exists level capacity,
    py_dict_getitem ECC_MAP (Namespace.ecc args) = Some level /\
    QrrrFrameFactory.capacity level (Namespace.version args) = Ok capacity /\
    match files w !! Namespace.source args with
    | None =>
        main id id id args w = (w, Failed (Uncaught FileNotFoundError))
    | Some content =>
        (len content = 0 /\
         main id id id args w = (w, Failed (Uncaught IndexError))) \/
        (1 <= len content <= capacity /\
         main id id id args w = (w, Failed (Uncaught ZeroDivisionError))) \/
        (capacity < len content /\
         exists gif,
           main id id id args w
           = (mkWorld (files w)
                (<[outfile_of id id (Namespace.source args) := gif]>
                   (written w)),
              Printed ("Generated QRRR code:"
                       ++ String (Ascii.ascii_of_nat 9)
                            (id (outfile_of id id (Namespace.source args))))
                      %string) /\
           len (gif_frames gif)
           = Qceiling (inject_Z (len content) / inject_Z capacity) /\
           gif_duration gif = 1000 / Namespace.fps args /\
           gif_loop gif = 0)
    end.
Proof.
  apply (main_outcomes id id id (Namespace.mk "H" 5 1 "a/b.bin")
           (mkWorld {[ "a/b.bin"%string := repeat x2a 15%nat ]} ∅) versions).
  - unfold ECC_MODES. simpl. rewrite !elem_of_cons. tauto.
  - reflexivity.
  - apply elem_of_versions. simpl. lia.
  - apply elem_of_fps_choices. simpl. lia.
Defined.

